(** * Phantom mobile wallet adapter: the deeplink session protocol

    A shallow embedding of [PhantomContextProvider] (the React provider that
    talks to the Phantom wallet through deeplinks) and of its two helpers
    [encryptPayload] and [decryptPayload].

    - JavaScript exceptions are values of [result].
    - React state ([useState]) is the record [ProviderState]; a response
      handler cannot read it (a closure sees the values of the render that
      created it), it can only call the setters, so a handler returns the
      list of setter calls it made before it returned or threw.
    - [Linking] (the transport) is the part of [World] that holds the
      registered ['url'] listeners, the URLs given to [openURL] and the
      calls of [remove].
    - The packages the file imports (tweetnacl, bs58, [JSON], [Buffer],
      [URL], [RegExp], @solana/web3.js) are the fields of [Externals]. *)

From Stdlib Require Import List String Ascii Strings.Byte Bool Arith PeanoNat Lia.
Import ListNotations.
Open Scope string_scope.

Set Implicit Arguments.
Set Warnings "-register-all".

(** ** JavaScript values and exceptions *)

Definition bytes := list byte.

Inductive JsError : Type :=
| Error (message : string)
| TypeError (message : string)
| SyntaxError (message : string).

Inductive result (A : Type) : Type :=
| Ok (a : A)
| Throw (e : JsError).
Arguments Ok {A} a.
Arguments Throw {A} e.

Definition rbind {A B} (r : result A) (f : A -> result B) : result B :=
  match r with
  | Ok a => f a
  | Throw e => Throw e
  end.

Declare Scope js_scope.
Delimit Scope js_scope with js.
Notation "x <- r ;; k" := (rbind r (fun x => k))
  (at level 61, r at next level, right associativity) : js_scope.

(** What [JSON.parse] returns and what [JSON.stringify] takes ([any]). *)
Inductive JsVal : Type :=
| JUndefined
| JNull
| JBool (b : bool)
| JNum (n : nat)
| JStr (s : string)
| JArr (items : list JsVal)
| JObj (fields : list (string * JsVal)).

Fixpoint assoc {V} (k : string) (l : list (string * V)) : option V :=
  match l with
  | [] => None
  | (k', v) :: l' => if String.eqb k k' then Some v else assoc k l'
  end.

(** [v.k] for the property names this program reads ([session],
    [public_key], [transaction], [signature]): a [TypeError] on [null] and
    [undefined], the field of an object, [undefined] anywhere else. *)
Definition get_prop (v : JsVal) (k : string) : result JsVal :=
  match v with
  | JUndefined | JNull =>
      Throw (TypeError ("Cannot read properties of null (reading '" ++ k ++ "')"))
  | JObj fields =>
      match assoc k fields with
      | Some x => Ok x
      | None => Ok JUndefined
      end
  | _ => Ok JUndefined
  end.

(** [URLSearchParams]: the pairs in order; [get] is the first value of a
    name, or [null]. *)
Definition URLSearchParams := list (string * string).

Definition get (params : URLSearchParams) (name : string) : option string :=
  assoc name params.

(** Truthiness of a [string | null]: [null] and the empty string are falsy. *)
Definition truthy (v : option string) : bool :=
  match v with
  | None => false
  | Some s => negb (String.eqb s EmptyString)
  end.

Record URL : Type := mkURL {
  pathname : string;
  searchParams : URLSearchParams
}.

(** [s.replace(pattern, replacement)] with a string pattern: the first
    occurrence only. *)
Definition String_replace (s pattern replacement : string) : string :=
  match index 0 pattern s with
  | Some i =>
      substring 0 i s ++ replacement
        ++ substring (i + String.length pattern)
             (String.length s - (i + String.length pattern)) s
  | None => s
  end.

Record BoxKeyPair : Type := mkBoxKeyPair {
  box_publicKey : bytes;
  box_secretKey : bytes
}.

(** ** The imported packages *)

Record Externals (PublicKey Transaction : Type) : Type := mkExternals {
  (* tweetnacl; the two random sources read a seed *)
  nacl_box_keyPair : nat -> BoxKeyPair;
  nacl_randomBytes : nat -> nat -> bytes;
  (* throws on a key of the wrong size *)
  nacl_box_before : bytes -> bytes -> result bytes;
  (* called with a nonce from randomBytes(24) and a key from box.before *)
  nacl_box_after : bytes -> bytes -> bytes -> bytes;
  (* throws on a nonce or key of the wrong size, [null] when the box does
     not authenticate *)
  nacl_box_open_after : bytes -> bytes -> bytes -> result (option bytes);
  (* bs58 *)
  bs58_encode : bytes -> string;
  bs58_decode : string -> result bytes;
  (* JSON and Buffer (utf8) *)
  JSON_stringify : JsVal -> string;
  JSON_parse : string -> result JsVal;
  Buffer_from : string -> bytes;
  Buffer_toString : bytes -> string;
  (* @solana/web3.js; the ledger's formats are opaque to this package.
     [serialize({requireAllSignatures: false})] throws on a transaction
     that is not finished (no recent blockhash, no fee payer, a signature
     that does not verify) *)
  PublicKey_new : JsVal -> result PublicKey;
  Transaction_serialize : Transaction -> result bytes;
  Transaction_from : bytes -> result Transaction;
  (* URL, URLSearchParams.toString, new RegExp(pattern).test(text) *)
  URL_new : string -> result URL;
  URLSearchParams_toString : URLSearchParams -> string;
  RegExp_test : string -> string -> bool
}.

(** ** Constants of the module *)

Definition PhantomWalletName := "Phantom".
Definition PhantomWalletUrl := "https://phantom.app/".
Definition PhantomIconUrl :=
  "https://www.gitbook.com/cdn-cgi/image/width=40,height=40,fit=contain,dpr=1,format=auto/https%3A%2F%2F3632261023-files.gitbook.io%2F~%2Ffiles%2Fv0%2Fb%2Fgitbook-legacy-files%2Fo%2Fspaces%252F-MVOiF6Zqit57q_hxJYp%252Favatar-1615495356537.png%3Fgeneration%3D1615495356841399%26alt%3Dmedia".

Module RedirectRoutes.
Definition OnConnect := "onConnect".
Definition OnSignTransaction := "onSignTransaction".
Definition OnSignMessage := "onSignMessage".
End RedirectRoutes.

Module RequestRoutes.
Definition Connect := "connect".
Definition SignTransaction := "signTransaction".
Definition SignMessage := "signMessage".
End RequestRoutes.

Module ResponseParams.
Definition DATA := "data".
Definition NONCE := "nonce".
Definition PHANTOM_ENCRYPTION_PUBLIC_KEY := "phantom_encryption_public_key".
End ResponseParams.

Definition NotConnected : JsError := Error "Wallet is not connected".
Definition DecryptionFailed : JsError := Error "Unable to decrypt data".
Definition RemoteError : JsError := Error "Error in Phantom Response".

(** ** React state of the provider *)

Record ProviderState (PublicKey : Type) : Type := mkState {
  publicKey : option PublicKey;
  keypair : option BoxKeyPair;
  sharedSecret : option bytes;
  session : JsVal
}.

(** The four [useState(null)] of a fresh provider. *)
Definition initial_state {PublicKey} : ProviderState PublicKey :=
  {| publicKey := None; keypair := None; sharedSecret := None; session := JNull |}.

(** One call of a state setter. *)
Inductive SetAction (PublicKey : Type) : Type :=
| SetPublicKey (v : option PublicKey)
| SetKeypair (v : option BoxKeyPair)
| SetSharedSecret (v : option bytes)
| SetSession (v : JsVal).
Arguments SetKeypair {PublicKey} v.
Arguments SetSharedSecret {PublicKey} v.
Arguments SetSession {PublicKey} v.

Definition apply_action {PublicKey} (st : ProviderState PublicKey)
    (a : SetAction PublicKey) : ProviderState PublicKey :=
  match a with
  | SetPublicKey v =>
      {| publicKey := v; keypair := keypair st;
         sharedSecret := sharedSecret st; session := session st |}
  | SetKeypair v =>
      {| publicKey := publicKey st; keypair := v;
         sharedSecret := sharedSecret st; session := session st |}
  | SetSharedSecret v =>
      {| publicKey := publicKey st; keypair := keypair st;
         sharedSecret := v; session := session st |}
  | SetSession v =>
      {| publicKey := publicKey st; keypair := keypair st;
         sharedSecret := sharedSecret st; session := v |}
  end.

Definition apply_actions {PublicKey} (st : ProviderState PublicKey)
    (l : list (SetAction PublicKey)) : ProviderState PublicKey :=
  fold_left apply_action l st.

(** ** Code that calls setters and may throw

    [Eff S A]: the value returned or the exception thrown, and the setter
    calls made up to that point, in order. *)
Definition Eff (S A : Type) : Type := (result A * list S)%type.

Definition eret {S A} (a : A) : Eff S A := (Ok a, []).

Definition ebind {S A B} (m : Eff S A) (f : A -> Eff S B) : Eff S B :=
  match m with
  | (Ok a, l) => let (r, l') := f a in (r, (l ++ l')%list)
  | (Throw e, l) => (Throw e, l)
  end.

Definition lift {S A} (r : result A) : Eff S A := (r, []).

Definition call_setter {S} (a : S) : Eff S unit := (Ok tt, [a]).

Notation "x <~ m ;; k" := (ebind m (fun x => k))
  (at level 61, m at next level, right associativity) : js_scope.
Notation "m ;;; k" := (ebind m (fun _ => k))
  (at level 61, right associativity) : js_scope.

(** ** The interface [CommonWallet] (its data fields) *)

Module CommonWallet.

Record WalletInfo : Type := mkWalletInfo {
  wallet_name : string;
  wallet_url : string;
  wallet_icon : string
}.

Record t (PublicKey : Type) : Type := mk {
  name : string;
  url : string;
  icon : string;
  readyState : string;
  publicKey : option PublicKey;
  connecting : bool;
  connected : bool;
  wallets : list string;
  autoConnect : bool;
  disconnecting : bool;
  wallet : WalletInfo
}.

End CommonWallet.

(** ** The provider *)

Section Provider.

Context {PublicKey Transaction : Type}.
Variable E : Externals PublicKey Transaction.

(** The props of [PhantomContextProvider]. *)
Variables (cluster appUrl protocol : string).

Local Open Scope js_scope.

(** [bs58.decode(x!)] for [x : string | null] (the [!] is erased by the
    compiler), and [bs58.decode(v)] for [v : any]. *)
Definition bs58_decode_arg (x : option string) : result bytes :=
  match x with
  | Some s => bs58_decode E s
  | None => Throw (TypeError "Expected String")
  end.

Definition bs58_decode_any (v : JsVal) : result bytes :=
  match v with
  | JStr s => bs58_decode E s
  | _ => Throw (TypeError "Expected String")
  end.

Definition buildUrl (path : string) (params : URLSearchParams) : string :=
  PhantomWalletUrl ++ "ul/v1/" ++ path ++ "?" ++ URLSearchParams_toString E params.

Definition decryptPayload (data nonce : option string) (sharedSecret : bytes)
  : result JsVal :=
  box <- bs58_decode_arg data ;;
  n <- bs58_decode_arg nonce ;;
  decryptedData <- nacl_box_open_after E box n sharedSecret ;;
  match decryptedData with
  | None => Throw DecryptionFailed
  | Some plain => JSON_parse E (Buffer_toString E plain)
  end.

(** [rnd] is the state of the random source when [nacl.randomBytes] runs. *)
Definition encryptPayload (payload : JsVal) (sharedSecret : bytes) (rnd : nat)
  : bytes * bytes :=
  let nonce := nacl_randomBytes E 24 rnd in
  let encryptedPayload :=
    nacl_box_after E (Buffer_from E (JSON_stringify E payload)) nonce sharedSecret in
  (nonce, encryptedPayload).

(** *** Promises and the transport *)

(** What the three operations resolve with. *)
Inductive Value : Type :=
| VVoid
| VTransaction (t : Transaction)
| VBytes (b : bytes).

Definition PhantomResponseHandler : Type :=
  URLSearchParams -> Eff (SetAction PublicKey) Value.

Inductive PromiseState : Type :=
| Pending
| Fulfilled (v : Value)
| Rejected (e : JsError).

(** A listener registered by [waitForResponse]: the closure holds the route
    and the handler; [sub_id] names both the subscription and the promise. *)
Record Subscription : Type := mkSub {
  sub_id : nat;
  sub_route : string;
  sub_handler : PhantomResponseHandler
}.

Record World : Type := mkWorld {
  state : ProviderState PublicKey;
  listeners : list Subscription;   (* Linking's 'url' listeners, oldest first *)
  promises : nat -> PromiseState;
  jobs : list nat;                 (* [finally] reactions waiting to run *)
  next_id : nat;
  opened : list string;            (* arguments of Linking.openURL *)
  removed : list nat;              (* calls of event.remove() *)
  handled : list nat;              (* invocations of a handler *)
  seed : nat                       (* the random source *)
}.

Definition init : World :=
  {| state := initial_state; listeners := []; promises := fun _ => Pending;
     jobs := []; next_id := 0; opened := []; removed := []; handled := [];
     seed := 0 |}.

(** [resolve] and [reject]: only the first call settles the promise, and
    settling queues the [finally] reaction. *)
Definition settle (id : nat) (o : PromiseState) (w : World) : World :=
  match promises w id with
  | Pending =>
      {| state := state w; listeners := listeners w;
         promises := fun k => if Nat.eqb k id then o else promises w k;
         jobs := (jobs w ++ [id])%list; next_id := next_id w;
         opened := opened w; removed := removed w; handled := handled w;
         seed := seed w |}
  | _ => w
  end.

(** Running a handler: its setter calls reach the state, the call is
    recorded. *)
Definition run_handler (s : Subscription) (params : URLSearchParams) (w : World)
  : result Value * World :=
  let (r, sets) := sub_handler s params in
  (r, {| state := apply_actions (state w) sets; listeners := listeners w;
         promises := promises w; jobs := jobs w; next_id := next_id w;
         opened := opened w; removed := removed w;
         handled := (handled w ++ [sub_id s])%list; seed := seed w |}).

(** The listener of [waitForResponse] on one ['url'] event. When [new URL]
    throws, the exception leaves the listener and the promise is untouched;
    [console.error] is not modelled. *)
Definition on_url (s : Subscription) (url : string) (w : World) : World :=
  let httpsUrl := String_replace url protocol appUrl in
  match URL_new E httpsUrl with
  | Throw _ => w
  | Ok parsedUrl =>
      if negb (RegExp_test E (sub_route s) (pathname parsedUrl)) then w
      else
        let params := searchParams parsedUrl in
        if truthy (get params "errorCode") then
          settle (sub_id s) (Rejected RemoteError) w
        else
          match run_handler s params w with
          | (Ok v, w') => settle (sub_id s) (Fulfilled v) w'
          | (Throw e, w') => settle (sub_id s) (Rejected e) w'
          end
  end.

(** [event.remove()]. *)
Definition remove (id : nat) (w : World) : World :=
  {| state := state w;
     listeners := filter (fun s => negb (Nat.eqb (sub_id s) id)) (listeners w);
     promises := promises w; jobs := jobs w; next_id := next_id w;
     opened := opened w; removed := (removed w ++ [id])%list;
     handled := handled w; seed := seed w |}.

(** Linking emits one event: every listener registered at that moment is
    called, oldest first. *)
Definition emit (url : string) (w : World) : World :=
  fold_left (fun w' s => on_url s url w') (listeners w) w.

(** The reactions queued during the turn run before the next event. *)
Definition run_jobs (w : World) : World :=
  let w' := fold_left (fun w' id => remove id w') (jobs w) w in
  {| state := state w'; listeners := listeners w'; promises := promises w';
     jobs := []; next_id := next_id w'; opened := opened w';
     removed := removed w'; handled := handled w'; seed := seed w' |}.

Definition deliver (url : string) (w : World) : World :=
  run_jobs (emit url w).

Definition deliver_all (urls : list string) (w : World) : World :=
  fold_left (fun w' url => deliver url w') urls w.

(** [waitForResponse]: a new promise, a new listener, and the [finally]
    that removes the listener once the promise has settled. *)
Definition waitForResponse (redirectRoute : string)
    (handler : PhantomResponseHandler) (w : World) : nat * World :=
  let id := next_id w in
  (id,
   {| state := state w;
      listeners :=
        (listeners w ++ [ {| sub_id := id; sub_route := redirectRoute;
                            sub_handler := handler |} ])%list;
      promises := fun k => if Nat.eqb k id then Pending else promises w k;
      jobs := jobs w; next_id := S id; opened := opened w;
      removed := removed w; handled := handled w; seed := seed w |}).

Definition openURL (url : string) (w : World) : World :=
  {| state := state w; listeners := listeners w; promises := promises w;
     jobs := jobs w; next_id := next_id w;
     opened := (opened w ++ [url])%list;
     removed := removed w; handled := handled w; seed := seed w |}.

(** One draw from the random source. *)
Definition draw (w : World) : nat * World :=
  (seed w,
   {| state := state w; listeners := listeners w; promises := promises w;
      jobs := jobs w; next_id := next_id w; opened := opened w;
      removed := removed w; handled := handled w; seed := S (seed w) |}).

(** *** The operations *)

(** What a call gives its caller: an exception thrown by the call itself, a
    promise that is already rejected (a [throw] inside an [async] function),
    or the promise of [waitForResponse]. *)
Inductive CallResult : Type :=
| Threw (e : JsError)
| RejectedNow (e : JsError)
| Returned (promise : nat).

Definition setPublicKey (v : option PublicKey) : Eff (SetAction PublicKey) unit :=
  call_setter (SetPublicKey v).
Definition setKeypair (v : option BoxKeyPair) : Eff (SetAction PublicKey) unit :=
  call_setter (SetKeypair v).
Definition setSharedSecret (v : option bytes) : Eff (SetAction PublicKey) unit :=
  call_setter (SetSharedSecret v).
Definition setSession (v : JsVal) : Eff (SetAction PublicKey) unit :=
  call_setter (SetSession v).

(** [onResponse] of [connect]. *)
Definition connect_onResponse (dAppKeypair : BoxKeyPair)
  : PhantomResponseHandler :=
  fun responseParams =>
    sharedSecretDapp <~
      lift (pk <- bs58_decode_arg
                    (get responseParams ResponseParams.PHANTOM_ENCRYPTION_PUBLIC_KEY) ;;
            nacl_box_before E pk (box_secretKey dAppKeypair)) ;;
    connectData <~
      lift (decryptPayload (get responseParams ResponseParams.DATA)
              (get responseParams ResponseParams.NONCE) sharedSecretDapp) ;;
    setKeypair (Some dAppKeypair) ;;;
    setSharedSecret (Some sharedSecretDapp) ;;;
    sess <~ lift (get_prop connectData "session") ;;
    setSession sess ;;;
    key <~ lift (get_prop connectData "public_key") ;;
    pk <~ lift (PublicKey_new E key) ;;
    setPublicKey (Some pk) ;;;
    eret VVoid.

Definition connect (w : World) : CallResult * World :=
  let (rnd, w1) := draw w in
  let dAppKeypair := nacl_box_keyPair E rnd in
  let requestParams :=
    [ ("dapp_encryption_public_key", bs58_encode E (box_publicKey dAppKeypair));
      ("cluster", cluster);
      ("app_url", appUrl);
      ("redirect_link", protocol ++ RedirectRoutes.OnConnect) ] in
  let (resPromise, w2) :=
    waitForResponse RedirectRoutes.OnConnect (connect_onResponse dAppKeypair) w1 in
  let url := buildUrl RequestRoutes.Connect requestParams in
  (Returned resPromise, openURL url w2).

(** [!sharedSecret || !keypair || !sharedSecret]; a [Uint8Array] and a key
    pair are objects, so only [null] is falsy. *)
Definition falsy {A} (v : option A) : bool :=
  match v with
  | None => true
  | Some _ => false
  end.

Definition not_connected (st : ProviderState PublicKey) : bool :=
  falsy (sharedSecret st) || falsy (keypair st) || falsy (sharedSecret st).

(** [onResponse] of [signTransaction]; it holds the shared secret of the
    render that created it. *)
Definition signTransaction_onResponse (secret : bytes) : PhantomResponseHandler :=
  fun responseParams =>
    lift (signTransactionData <-
            decryptPayload (get responseParams ResponseParams.DATA)
              (get responseParams ResponseParams.NONCE) secret ;;
          tx <- get_prop signTransactionData "transaction" ;;
          raw <- bs58_decode_any tx ;;
          t <- Transaction_from E raw ;;
          Ok (VTransaction t)).

Definition signTransaction (transaction : Transaction) (w : World)
  : CallResult * World :=
  match Transaction_serialize E transaction with
  | Throw e => (Threw e, w)
  | Ok raw =>
      let serializedTransaction := bs58_encode E raw in
      if not_connected (state w) then (Threw NotConnected, w)
      else
        match sharedSecret (state w), keypair (state w) with
        | Some secret, Some kp =>
            let payload :=
              JObj [ ("session", session (state w));
                     ("transaction", JStr serializedTransaction) ] in
            let (rnd, w1) := draw w in
            let (nonce, encryptedPayload) := encryptPayload payload secret rnd in
            let requestParams :=
              [ ("dapp_encryption_public_key", bs58_encode E (box_publicKey kp));
                ("nonce", bs58_encode E nonce);
                ("redirect_link", protocol ++ RedirectRoutes.OnSignTransaction);
                ("payload", bs58_encode E encryptedPayload) ] in
            let url := buildUrl RequestRoutes.SignTransaction requestParams in
            let (promise, w2) :=
              waitForResponse RedirectRoutes.OnSignTransaction
                (signTransaction_onResponse secret) w1 in
            (Returned promise, openURL url w2)
        | _, _ => (Threw NotConnected, w)
        end
  end.

(** [responseHandler] of [signMessage]. *)
Definition signMessage_responseHandler (secret : bytes) : PhantomResponseHandler :=
  fun responseParams =>
    lift (signMessageData <-
            decryptPayload (get responseParams ResponseParams.DATA)
              (get responseParams ResponseParams.NONCE) secret ;;
          signature <- get_prop signMessageData "signature" ;;
          raw <- bs58_decode_any signature ;;
          Ok (VBytes raw)).

Definition signMessage (message : bytes) (w : World) : CallResult * World :=
  if not_connected (state w) then (RejectedNow NotConnected, w)
  else
    match sharedSecret (state w), keypair (state w) with
    | Some secret, Some kp =>
        let payload :=
          JObj [ ("session", session (state w));
                 ("message", JStr (bs58_encode E message)) ] in
        let (rnd, w1) := draw w in
        let (nonce, encryptedPayload) := encryptPayload payload secret rnd in
        let requestParams :=
          [ ("dapp_encryption_public_key", bs58_encode E (box_publicKey kp));
            ("nonce", bs58_encode E nonce);
            ("redirect_link", protocol ++ RedirectRoutes.OnSignMessage);
            ("payload", bs58_encode E encryptedPayload) ] in
        let (promise, w2) :=
          waitForResponse RedirectRoutes.OnSignMessage
            (signMessage_responseHandler secret) w1 in
        let url := buildUrl RequestRoutes.SignMessage requestParams in
        (Returned promise, openURL url w2)
    | _, _ => (RejectedNow NotConnected, w)
    end.

Definition disconnect_sets : list (SetAction PublicKey) :=
  [ SetPublicKey None; SetSession JNull; SetKeypair None; SetSharedSecret None ].

Definition disconnect (w : World) : World :=
  {| state := apply_actions (state w) disconnect_sets;
     listeners := listeners w; promises := promises w; jobs := jobs w;
     next_id := next_id w; opened := opened w; removed := removed w;
     handled := handled w; seed := seed w |}.

(** *** The value given to [PhantomContext.Provider]

    The four functions of the value are the operations above. *)
Definition provider_value (w : World) : CommonWallet.t PublicKey :=
  let name := PhantomWalletName in
  let url := PhantomWalletUrl in
  let icon := PhantomIconUrl in
  let readyState := "Installed" in
  let connecting := false in
  let connected := true in
  let wallets := [] in
  let autoConnect := true in
  let disconnecting := false in
  let wallet :=
    {| CommonWallet.wallet_name := PhantomWalletName;
       CommonWallet.wallet_url := PhantomWalletUrl;
       CommonWallet.wallet_icon := PhantomIconUrl |} in
  {| CommonWallet.name := name; CommonWallet.url := url;
     CommonWallet.icon := icon; CommonWallet.readyState := readyState;
     CommonWallet.connected := connected;
     CommonWallet.connecting := connecting;
     CommonWallet.wallets := wallets;
     CommonWallet.autoConnect := autoConnect;
     CommonWallet.disconnecting := disconnecting;
     CommonWallet.wallet := wallet;
     CommonWallet.publicKey := publicKey (state w) |}.

(** *** Vocabulary of the statements *)

Definition subscribed (id : nat) (w : World) : Prop :=
  In id (map sub_id (listeners w)).

Definition settled (id : nat) (w : World) : Prop :=
  promises w id <> Pending.

Definition times (id : nat) (l : list nat) : nat := count_occ Nat.eq_dec l id.

(** The test of line 124 on one event: the URL parses and its path matches
    the route. *)
Definition route_matches (route url : string) : bool :=
  match URL_new E (String_replace url protocol appUrl) with
  | Ok parsedUrl => RegExp_test E route (pathname parsedUrl)
  | Throw _ => false
  end.

(** The listeners of [l] whose route matches the event, and the listeners
    left after the removals [js]. *)
Definition firing (url : string) (l : list Subscription) : list Subscription :=
  filter (fun s => route_matches (sub_route s) url) l.

Definition remove_ids (js : list nat) (l : list Subscription)
  : list Subscription :=
  fold_left (fun l' id => filter (fun s => negb (Nat.eqb (sub_id s) id)) l') js l.

Definition event_params (url : string) : URLSearchParams :=
  match URL_new E (String_replace url protocol appUrl) with
  | Ok parsedUrl => searchParams parsedUrl
  | Throw _ => []
  end.

(** The setter calls of a listener on one event. *)
Definition writes (s : Subscription) (url : string)
  : list (SetAction PublicKey) :=
  if route_matches (sub_route s) url then
    if truthy (get (event_params url) "errorCode") then []
    else snd (sub_handler s (event_params url))
  else [].

Definition outcome (r : result Value) : PromiseState :=
  match r with
  | Ok v => Fulfilled v
  | Throw e => Rejected e
  end.

(** What a matching event does to a pending promise. *)
Definition response_outcome (handler : PhantomResponseHandler)
    (params : URLSearchParams) : PromiseState :=
  if truthy (get params "errorCode") then Rejected RemoteError
  else outcome (fst (handler params)).

(** The outcome of a waiter on a stream of events, read off the stream
    alone: the first event that matches its route decides. *)
Fixpoint first_match (route : string) (handler : PhantomResponseHandler)
    (urls : list string) : PromiseState :=
  match urls with
  | [] => Pending
  | url :: rest =>
      if route_matches route url then response_outcome handler (event_params url)
      else first_match route handler rest
  end.

(** A waiter is either waiting (subscribed, pending, never removed, handler
    never run) or done (unsubscribed, settled, removed once, handler run at
    most once). *)
Definition waiting (id : nat) (w : World) : Prop :=
  subscribed id w /\ promises w id = Pending
  /\ times id (removed w) = 0 /\ times id (handled w) = 0.

Definition done (id : nat) (w : World) : Prop :=
  ~ subscribed id w /\ settled id w
  /\ times id (removed w) = 1 /\ times id (handled w) <= 1.

Record Inv (w : World) : Prop := mkInv {
  inv_jobs : jobs w = [];
  inv_nodup : NoDup (map sub_id (listeners w));
  inv_known : forall id, id < next_id w -> waiting id w \/ done id w;
  inv_fresh : forall id, next_id w <= id ->
      ~ subscribed id w /\ times id (removed w) = 0 /\ times id (handled w) = 0
}.

(** What can happen to the provider: a call of one of its operations, a
    call of [waitForResponse], or an event from [Linking]. *)
Inductive step : World -> World -> Prop :=
| step_connect w : step w (snd (connect w))
| step_signTransaction t w : step w (snd (signTransaction t w))
| step_signMessage m w : step w (snd (signMessage m w))
| step_disconnect w : step w (disconnect w)
| step_wait route handler w : step w (snd (waitForResponse route handler w))
| step_deliver url w : step w (deliver url w).

Inductive steps : World -> World -> Prop :=
| steps_refl w : steps w w
| steps_next w1 w2 w3 : steps w1 w2 -> step w2 w3 -> steps w1 w3.

Definition reachable (w : World) : Prop := steps init w.

(** No promise beyond the allocated ones is settled. *)
Definition fresh_pending (w : World) : Prop :=
  forall id, next_id w <= id -> promises w id = Pending.

(** A URL built by [buildUrl] for one of the three request routes. *)
Definition phantom_request (u : string) : Prop :=
  prefix "https://phantom.app/ul/v1/" u = true
  /\ exists route params,
       In route [RequestRoutes.Connect; RequestRoutes.SignTransaction;
                 RequestRoutes.SignMessage]
       /\ u = buildUrl route params.

(** A handler that never calls a setter. *)
Definition writes_nothing (s : Subscription) : Prop :=
  forall params, snd (sub_handler s params) = [].

(** The session is absent: the four fields hold [null]. *)
Definition Disconnected (st : ProviderState PublicKey) : Prop :=
  st = initial_state.

(** [p] survives [JSON.stringify], the utf8 bytes and [JSON.parse]. *)
Definition JSON_representable (p : JsVal) : Prop :=
  JSON_parse E (Buffer_toString E (Buffer_from E (JSON_stringify E p))) = Ok p.

(** The facts about tweetnacl and bs58 that the round trip rests on. *)
Record CodecLaws : Prop := mkCodecLaws {
  bs58_decode_encode : forall b, bs58_decode E (bs58_encode E b) = Ok b;
  randomBytes_length : forall n rnd, List.length (nacl_randomBytes E n rnd) = n;
  box_open_after_after : forall msg nonce key,
      List.length nonce = 24 -> List.length key = 32 ->
      nacl_box_open_after E (nacl_box_after E msg nonce key) nonce key
      = Ok (Some msg)
}.

End Provider.

Arguments Pending {Transaction}.
Arguments VVoid {Transaction}.
Arguments VBytes {Transaction} b.

(** ** A small instance of the packages

    Stand-ins that compute, for running the provider on concrete events:
    a tagged box instead of the real cipher, a marked text instead of
    base 58, and readers for the URLs and the JSON texts used below. *)
Module Sample.

Definition PublicKey := bytes.
Definition Transaction := bytes.

Definition byte_of (n : nat) : byte :=
  match Byte.of_nat (n mod 256) with
  | Some b => b
  | None => x00
  end.

Definition keyPair (rnd : nat) : BoxKeyPair :=
  {| box_publicKey := repeat (byte_of rnd) 32;
     box_secretKey := repeat (byte_of (S rnd)) 32 |}.

Definition randomBytes (n rnd : nat) : bytes := repeat (byte_of rnd) n.

Definition bytes_eqb (a b : bytes) : bool :=
  if list_eq_dec byte_eq_dec a b then true else false.

Definition box_before (theirPublicKey mySecretKey : bytes) : result bytes :=
  if negb (Nat.eqb (List.length theirPublicKey) 32) then
    Throw (Error "bad public key size")
  else if negb (Nat.eqb (List.length mySecretKey) 32) then
    Throw (Error "bad secret key size")
  else Ok (firstn 16 theirPublicKey ++ firstn 16 mySecretKey)%list.

(** The box is the key and the nonce (the tag) followed by the message. *)
Definition box_after (msg nonce key : bytes) : bytes :=
  (key ++ nonce ++ msg)%list.

Definition box_open_after (box nonce key : bytes) : result (option bytes) :=
  if negb (Nat.eqb (List.length key) 32) then Throw (Error "bad key size")
  else if negb (Nat.eqb (List.length nonce) 24) then Throw (Error "bad nonce size")
  else if bytes_eqb (firstn 56 box) (key ++ nonce)%list
       then Ok (Some (skipn 56 box))
       else Ok None.

(** The text of a byte sequence is its characters after a ["z"]. *)
Definition encode58 (b : bytes) : string := String "z" (string_of_list_byte b).

Definition decode58 (s : string) : result bytes :=
  match s with
  | String "z" rest => Ok (list_byte_of_string rest)
  | _ => Throw (Error "Non-base58 character")
  end.

(** [split_on c s]: the text before the first [c], and the text after it
    when there is one. *)
Fixpoint split_on (c : ascii) (s : string) : string * option string :=
  match s with
  | EmptyString => (EmptyString, None)
  | String a s' =>
      if Ascii.eqb a c then (EmptyString, Some s')
      else let (before, after) := split_on c s' in (String a before, after)
  end.

Fixpoint split_all (fuel : nat) (c : ascii) (s : string) : list string :=
  match fuel with
  | 0 => [s]
  | S fuel' =>
      match split_on c s with
      | (before, None) => [before]
      | (before, Some after) => before :: split_all fuel' c after
      end
  end.

Definition parse_pair (s : string) : string * string :=
  match split_on "=" s with
  | (k, Some v) => (k, v)
  | (k, None) => (k, EmptyString)
  end.

Definition parse_query (q : string) : URLSearchParams :=
  match q with
  | EmptyString => []
  | _ => map parse_pair (split_all (String.length q) "&" q)
  end.

(** [https://host/path?query], nothing else. *)
Definition parse_url (s : string) : result URL :=
  if prefix "https://" s then
    let rest := substring 8 (String.length s - 8) s in
    match split_on "/" rest with
    | (_, Some path_query) =>
        match split_on "?" path_query with
        | (path, Some q) =>
            Ok {| pathname := String "/" path; searchParams := parse_query q |}
        | (path, None) =>
            Ok {| pathname := String "/" path; searchParams := [] |}
        end
    | (_, None) => Ok {| pathname := "/"; searchParams := [] |}
    end
  else Throw (TypeError "Invalid URL").

Definition query_toString (params : URLSearchParams) : string :=
  String.concat "&" (map (fun kv => fst kv ++ "=" ++ snd kv) params).

(** A pattern without special characters matches where it occurs. *)
Definition regexp_test (pattern text : string) : bool :=
  match index 0 pattern text with
  | Some _ => true
  | None => false
  end.

(** JSON texts: [null], strings without escapes, and objects whose values
    are such strings or [null]. *)
Definition dquote : ascii := ascii_of_nat 34.

Definition quote (s : string) : string :=
  String dquote (s ++ String dquote EmptyString).

Definition stringify_atom (v : JsVal) : string :=
  match v with
  | JStr s => quote s
  | _ => "null"
  end.

Definition stringify (v : JsVal) : string :=
  match v with
  | JObj fields =>
      "{" ++ String.concat ","
               (map (fun kv => quote (fst kv) ++ ":" ++ stringify_atom (snd kv))
                  fields) ++ "}"
  | _ => stringify_atom v
  end.

Definition parse_atom (s : string) : result JsVal :=
  if String.eqb s "null" then Ok JNull
  else
    match s with
    | String a rest =>
        match Ascii.eqb a dquote, split_on dquote rest with
        | true, (body, Some EmptyString) => Ok (JStr body)
        | _, _ => Throw (SyntaxError "Unexpected token")
        end
    | EmptyString => Throw (SyntaxError "Unexpected end of JSON input")
    end.

Definition parse_field (s : string) : result (string * JsVal) :=
  match split_on ":" s with
  | (k, Some v) =>
      match parse_atom k, parse_atom v with
      | Ok (JStr key), Ok val => Ok (key, val)
      | _, _ => Throw (SyntaxError "Unexpected token")
      end
  | _ => Throw (SyntaxError "Unexpected token")
  end.

Fixpoint parse_fields (l : list string) : result (list (string * JsVal)) :=
  match l with
  | [] => Ok []
  | f :: l' =>
      match parse_field f, parse_fields l' with
      | Ok kv, Ok rest => Ok (kv :: rest)
      | _, _ => Throw (SyntaxError "Unexpected token")
      end
  end.

Definition parse_json (s : string) : result JsVal :=
  match s with
  | String "{" rest =>
      match split_on "}" rest with
      | (EmptyString, Some EmptyString) => Ok (JObj [])
      | (body, Some EmptyString) =>
          match parse_fields (split_all (String.length body) "," body) with
          | Ok fields => Ok (JObj fields)
          | Throw e => Throw e
          end
      | _ => Throw (SyntaxError "Unexpected end of JSON input")
      end
  | _ => parse_atom s
  end.

(** A public key is the text of 32 bytes. *)
Definition newPublicKey (v : JsVal) : result PublicKey :=
  match v with
  | JStr s =>
      match decode58 s with
      | Ok b =>
          if Nat.eqb (List.length b) 32 then Ok b
          else Throw (Error "Invalid public key input")
      | Throw e => Throw e
      end
  | _ => Throw (Error "Invalid public key input")
  end.

(** A transaction is its bytes; the empty one is not finished. *)
Definition serialize (t : Transaction) : result bytes :=
  match t with
  | [] => Throw (Error "Transaction recentBlockhash required")
  | _ => Ok t
  end.

Definition externals : Externals PublicKey Transaction :=
  {| nacl_box_keyPair := keyPair;
     nacl_randomBytes := randomBytes;
     nacl_box_before := box_before;
     nacl_box_after := box_after;
     nacl_box_open_after := box_open_after;
     bs58_encode := encode58;
     bs58_decode := decode58;
     JSON_stringify := stringify;
     JSON_parse := parse_json;
     Buffer_from := list_byte_of_string;
     Buffer_toString := string_of_list_byte;
     PublicKey_new := newPublicKey;
     Transaction_serialize := serialize;
     Transaction_from := fun b => Ok b;
     URL_new := parse_url;
     URLSearchParams_toString := query_toString;
     RegExp_test := regexp_test |}.

(** The props of the sample application. *)
Definition cluster := "devnet".
Definition appUrl := "https://app.example/".
Definition protocol := "myapp://".

(** The provider of the sample application before any call, and after its
    first [connect]. *)
Definition start : @World PublicKey Transaction := init.

Definition connected : CallResult * @World PublicKey Transaction :=
  connect externals cluster appUrl protocol start.

Definition deliver := deliver externals appUrl protocol.

(** The wallet's response to that [connect]: the wallet's key, a nonce and
    the box of [payload] under the secret shared with the key pair of
    seed 0. *)
Definition wallet_key : bytes := repeat x01 32.
Definition nonce : bytes := repeat x02 24.

Definition secret : bytes :=
  match box_before wallet_key (box_secretKey (keyPair 0)) with
  | Ok s => s
  | Throw _ => []
  end.

Definition connect_response (payload : JsVal) : string :=
  "myapp://onConnect?phantom_encryption_public_key=" ++ encode58 wallet_key
  ++ "&nonce=" ++ encode58 nonce
  ++ "&data="
  ++ encode58 (box_after (list_byte_of_string (stringify payload)) nonce secret).

(** A payload whose [public_key] is not the text of a key, and one whose
    [public_key] is. *)
Definition bad_key_payload : JsVal :=
  JObj [("session", JStr "s1"); ("public_key", JStr "0OIl")].

Definition good_payload : JsVal :=
  JObj [("session", JStr "s1");
        ("public_key", JStr (encode58 (repeat x03 32)))].

(** The sample provider with a session, and the wallet's responses to its
    sign requests: a nonce and the box of [payload] under the shared
    secret, on the redirect route [route]. *)
Definition session_world : @World PublicKey Transaction :=
  deliver (connect_response good_payload) (snd connected).

Definition sign_response (route : string) (payload : JsVal) : string :=
  "myapp://" ++ route ++ "?nonce=" ++ encode58 nonce
  ++ "&data="
  ++ encode58 (box_after (list_byte_of_string (stringify payload)) nonce secret).

Definition signature_payload (signature : bytes) : JsVal :=
  JObj [("signature", JStr (encode58 signature))].

Definition transaction_payload (raw : bytes) : JsVal :=
  JObj [("transaction", JStr (encode58 raw))].

End Sample.

Unset Implicit Arguments.

(** * Properties *)

Section Session.

Context {PublicKey Transaction : Type}.
Variable E : Externals PublicKey Transaction.
Variables (cluster appUrl protocol : string).

Abbreviation World := (@World PublicKey Transaction).

(** ** disconnect *)

Lemma apply_disconnect_sets (st : ProviderState PublicKey) :
  apply_actions st disconnect_sets = initial_state.
Proof. destruct st; reflexivity. Qed.

(** C3. [disconnect] is defined on every world; it leaves the four fields of
    the session at [null], gives nothing to the transport (no URL opened, no
    listener added or removed), and a second call changes nothing. *)
Theorem disconnect_clears_and_is_idempotent (w : World) :
  (publicKey (state (disconnect w)) = None
   /\ session (state (disconnect w)) = JNull
   /\ keypair (state (disconnect w)) = None
   /\ sharedSecret (state (disconnect w)) = None)
  /\ opened (disconnect w) = opened w
  /\ listeners (disconnect w) = listeners w
  /\ removed (disconnect w) = removed w
  /\ disconnect (disconnect w) = disconnect w.
Proof.
  destruct w as [st ls ps js n os rs hs sd]; destruct st.
  repeat split; reflexivity.
Qed.

(** ** The connection status given to consumers *)

(** C9. In every world the value given to the consumers has
    [connected = true] and [connecting = false], so the two fields are the
    same in any two worlds: before or after a connect that succeeded or
    failed, and after a disconnect. *)
Theorem status_fields_are_constant (w w' : World) :
  CommonWallet.connected (provider_value w) = true
  /\ CommonWallet.connecting (provider_value w) = false
  /\ CommonWallet.connected (provider_value w')
     = CommonWallet.connected (provider_value w)
  /\ CommonWallet.connecting (provider_value w')
     = CommonWallet.connecting (provider_value w).
Proof. repeat split; reflexivity. Qed.

(** ** The guard of the sign operations *)

Lemma not_connected_iff (st : ProviderState PublicKey) :
  not_connected st = true <-> sharedSecret st = None \/ keypair st = None.
Proof.
  unfold not_connected, falsy.
  destruct (sharedSecret st), (keypair st); simpl; split; intros H;
    try reflexivity; try discriminate; auto;
    destruct H; discriminate.
Qed.

Lemma not_connected_Disconnected (st : ProviderState PublicKey) :
  Disconnected st -> not_connected st = true.
Proof. intros ->; reflexivity. Qed.

(** C2 at the failing input. With no session (the four fields at [null]),
    a transaction on which [serialize] throws [e] makes [signTransaction]
    throw [e] and not 'Wallet is not connected': line 188 runs before the
    guard of line 193. The world is the one before the call. [signMessage],
    whose guard is its first statement, rejects with 'Wallet is not
    connected'. *)
Theorem signTransaction_serialize_error_precedes_guard (w : World)
    (transaction : Transaction) (message : bytes) (e : JsError) :
  Disconnected (state w) ->
  Transaction_serialize E transaction = Throw e ->
  e <> NotConnected ->
  signTransaction E protocol transaction w = (Threw e, w)
  /\ fst (signTransaction E protocol transaction w) <> Threw NotConnected
  /\ signMessage E protocol message w = (RejectedNow NotConnected, w).
Proof.
  intros H Hser Hne. apply not_connected_Disconnected in H.
  unfold signTransaction, signMessage. rewrite Hser, H. simpl.
  repeat split; try reflexivity. intros [= ->]. apply Hne. reflexivity.
Qed.

(** X15 (what holds of C2). With no session, [signTransaction] throws and
    leaves the world as it is, whatever the transaction: no URL is opened,
    no listener registered. The exception is 'Wallet is not connected' when
    the transaction serializes. [signMessage] rejects with 'Wallet is not
    connected' and leaves the world as it is. *)
Theorem sign_requires_session_once_serialized (w : World)
    (transaction : Transaction) (message : bytes) :
  Disconnected (state w) ->
  (exists e, signTransaction E protocol transaction w = (Threw e, w))
  /\ (forall raw, Transaction_serialize E transaction = Ok raw ->
      signTransaction E protocol transaction w = (Threw NotConnected, w))
  /\ signMessage E protocol message w = (RejectedNow NotConnected, w).
Proof.
  intros H. apply not_connected_Disconnected in H.
  unfold signTransaction, signMessage. rewrite H.
  split; [| split; [| reflexivity]].
  - destruct (Transaction_serialize E transaction) as [raw | e];
      eexists; reflexivity.
  - intros raw ->. reflexivity.
Qed.


(** X16 (what holds of C10). For a transaction that serializes to [raw]:
    each sign operation fails with 'Wallet is not connected' exactly when
    [sharedSecret] or [keypair] is [null]; the guard does not read
    [session]. When both are present and [session] is [null], the call
    returns the promise of a new listener and opens one URL: the text
    [https://phantom.app/ul/v1/], the request route, [?] and the query of
    the four parameters, of which [payload] is the base-58 text of the box,
    under the secret and the drawn nonce, of the JSON text of the object
    with [session = null]. *)
Theorem sign_guard_once_serialized (w : World) (transaction : Transaction)
    (message : bytes) (raw : bytes) :
  Transaction_serialize E transaction = Ok raw ->
  (fst (signTransaction E protocol transaction w) = Threw NotConnected
     <-> sharedSecret (state w) = None \/ keypair (state w) = None)
  /\ (fst (signMessage E protocol message w) = RejectedNow NotConnected
     <-> sharedSecret (state w) = None \/ keypair (state w) = None)
  /\ (forall secret kp,
       session (state w) = JNull ->
       sharedSecret (state w) = Some secret ->
       keypair (state w) = Some kp ->
       let nonce := nacl_randomBytes E 24 (seed w) in
       let query redirect payload :=
         URLSearchParams_toString E
           [ ("dapp_encryption_public_key", bs58_encode E (box_publicKey kp));
             ("nonce", bs58_encode E nonce);
             ("redirect_link", protocol ++ redirect);
             ("payload",
              bs58_encode E
                (nacl_box_after E (Buffer_from E (JSON_stringify E payload))
                   nonce secret)) ] in
       let wt := snd (signTransaction E protocol transaction w) in
       let wm := snd (signMessage E protocol message w) in
       (fst (signTransaction E protocol transaction w) = Returned (next_id w)
        /\ subscribed (next_id w) wt
        /\ opened wt =
             (opened w ++
              [ ("https://phantom.app/ul/v1/signTransaction?"
                 ++ query RedirectRoutes.OnSignTransaction
                      (JObj [ ("session", JNull);
                              ("transaction", JStr (bs58_encode E raw)) ]))%string ])%list)
       /\ (fst (signMessage E protocol message w) = Returned (next_id w)
          /\ subscribed (next_id w) wm
          /\ opened wm =
               (opened w ++
                [ ("https://phantom.app/ul/v1/signMessage?"
                   ++ query RedirectRoutes.OnSignMessage
                        (JObj [ ("session", JNull);
                                ("message", JStr (bs58_encode E message)) ]))%string ])%list)).
Proof.
  intros Hser. split; [| split].
  - unfold signTransaction. rewrite Hser, <- not_connected_iff.
    destruct (not_connected (state w)) eqn:G; simpl.
    + split; reflexivity.
    + split; [| discriminate].
      unfold not_connected, falsy in G.
      destruct (sharedSecret (state w)), (keypair (state w)); simpl in *;
        discriminate.
  - unfold signMessage. rewrite <- not_connected_iff.
    destruct (not_connected (state w)) eqn:G; simpl.
    + split; reflexivity.
    + split; [| discriminate].
      unfold not_connected, falsy in G.
      destruct (sharedSecret (state w)), (keypair (state w)); simpl in *;
        discriminate.
  - intros secret kp Hs Hsec Hkp. simpl.
    unfold signTransaction, signMessage, not_connected, subscribed.
    rewrite Hser, Hs, Hsec, Hkp. simpl.
    repeat split; try reflexivity;
      rewrite map_app; apply in_or_app; right; left; reflexivity.
Qed.

(** ** The payload codec *)

(** C4. Under the laws of bs58 and of the box, a payload that survives a
    JSON round trip, encrypted under a 32-byte secret, is what
    [decryptPayload] returns from the base-58 texts of the box and of the
    nonce. When the two texts decode and the box does not open ([null]),
    [decryptPayload] throws 'Unable to decrypt data'; and whenever it returns
    a value, the box opened and the value is the JSON reading of the opened
    plaintext. *)
Theorem encrypt_decrypt_round_trip (p : JsVal) (s : bytes) (rnd : nat)
    (data nonce : option string) (key : bytes) :
  (CodecLaws E -> JSON_representable E p -> List.length s = 32 ->
   forall n c, encryptPayload E p s rnd = (n, c) ->
     decryptPayload E (Some (bs58_encode E c)) (Some (bs58_encode E n)) s = Ok p)
  /\ (forall box n,
       bs58_decode_arg E data = Ok box -> bs58_decode_arg E nonce = Ok n ->
       nacl_box_open_after E box n key = Ok None ->
       decryptPayload E data nonce key = Throw DecryptionFailed)
  /\ (forall v,
       decryptPayload E data nonce key = Ok v ->
       exists box n plain,
         bs58_decode_arg E data = Ok box /\ bs58_decode_arg E nonce = Ok n
         /\ nacl_box_open_after E box n key = Ok (Some plain)
         /\ JSON_parse E (Buffer_toString E plain) = Ok v).
Proof.
  split; [| split].
  - intros L R Hs n c Henc.
    unfold encryptPayload in Henc. injection Henc as <- <-.
    unfold decryptPayload; simpl.
    rewrite !(bs58_decode_encode L); simpl.
    rewrite (box_open_after_after L); simpl;
      [ exact R | apply (randomBytes_length L) | exact Hs ].
  - intros box n Hd Hn Ho.
    unfold decryptPayload. rewrite Hd; simpl. rewrite Hn; simpl.
    rewrite Ho; reflexivity.
  - intros v H. unfold decryptPayload in H.
    destruct (bs58_decode_arg E data) as [box|] eqn:Hd; simpl in H;
      [| discriminate].
    destruct (bs58_decode_arg E nonce) as [n|] eqn:Hn; simpl in H;
      [| discriminate].
    destruct (nacl_box_open_after E box n key) as [[plain|]|] eqn:Ho;
      simpl in H; try discriminate.
    exists box, n, plain. repeat split; assumption.
Qed.

End Session.

(** * The response waiter *)

Section Waiter.

Context {PublicKey Transaction : Type}.
Variable E : Externals PublicKey Transaction.
Variables (cluster appUrl protocol : string).

Abbreviation World := (@World PublicKey Transaction).
Abbreviation Subscription := (@Subscription PublicKey Transaction).
Abbreviation Handler := (@PhantomResponseHandler PublicKey Transaction).
Abbreviation matches := (route_matches E appUrl protocol).
Abbreviation params_of := (event_params E appUrl protocol).
Abbreviation on_url' := (on_url E appUrl protocol).
Abbreviation firing' := (firing E appUrl protocol).

Lemma response_outcome_settled (h : Handler) params :
  response_outcome h params <> Pending.
Proof.
  unfold response_outcome, outcome.
  destruct (truthy _); [discriminate |].
  destruct (fst (h params)); discriminate.
Qed.

(** *** One listener, one event *)

Lemma on_url_unmatched (s : Subscription) url (w : World) :
  matches (sub_route s) url = false -> on_url' s url w = w.
Proof.
  unfold route_matches, on_url. intros H.
  destruct (URL_new E _); [| reflexivity].
  rewrite H; reflexivity.
Qed.

Lemma on_url_matched (s : Subscription) url (w : World) :
  matches (sub_route s) url = true ->
  promises w (sub_id s) = Pending ->
  let w' := on_url' s url w in
  let err := truthy (get (params_of url) "errorCode") in
  listeners w' = listeners w /\ removed w' = removed w
  /\ next_id w' = next_id w /\ opened w' = opened w /\ seed w' = seed w
  /\ jobs w' = (jobs w ++ [sub_id s])%list
  /\ (forall k, promises w' k =
        if Nat.eqb k (sub_id s)
        then response_outcome (sub_handler s) (params_of url)
        else promises w k)
  /\ handled w' = (handled w ++ if err then [] else [sub_id s])%list
  /\ state w' =
       apply_actions (state w)
         (if err then [] else snd (sub_handler s (params_of url))).
Proof.
  unfold route_matches, event_params, on_url, response_outcome. intros H P.
  destruct (URL_new E _) as [u|]; [| discriminate].
  rewrite H; simpl.
  destruct (truthy (get (searchParams u) "errorCode")).
  - unfold settle; rewrite P; simpl.
    rewrite app_nil_r. repeat split; reflexivity.
  - unfold run_handler.
    destruct (sub_handler s (searchParams u)) as [[v|e] sets]; simpl;
      unfold settle; simpl; rewrite P; simpl; repeat split; reflexivity.
Qed.

(** *** One event, every listener *)

Lemma firing_In url (l : list Subscription) s :
  In s (firing' url l) <-> In s l /\ matches (sub_route s) url = true.
Proof. unfold firing. apply filter_In. Qed.

Lemma find_id_In (l : list Subscription) k s :
  find (fun s => Nat.eqb (sub_id s) k) l = Some s -> In s l /\ sub_id s = k.
Proof.
  intros H. apply find_some in H. destruct H as [H1 H2].
  apply Nat.eqb_eq in H2. auto.
Qed.

Lemma emit_fold url (l : list Subscription) :
  forall w : World,
  NoDup (map sub_id l) ->
  (forall s, In s l -> promises w (sub_id s) = Pending) ->
  let w' := fold_left (fun w' s => on_url' s url w') l w in
  let err := truthy (get (params_of url) "errorCode") in
  listeners w' = listeners w /\ removed w' = removed w
  /\ next_id w' = next_id w /\ opened w' = opened w /\ seed w' = seed w
  /\ jobs w' = (jobs w ++ map sub_id (firing' url l))%list
  /\ (forall k, promises w' k =
        match find (fun s => Nat.eqb (sub_id s) k) (firing' url l) with
        | Some s => response_outcome (sub_handler s) (params_of url)
        | None => promises w k
        end)
  /\ handled w' =
       (handled w ++ if err then [] else map sub_id (firing' url l))%list.
Proof.
  induction l as [| a l IH]; intros w ND P; simpl.
  - rewrite !app_nil_r. destruct (truthy _); rewrite ?app_nil_r;
      repeat split; reflexivity.
  - inversion ND as [| x xs Hnotin ND']; subst.
    destruct (matches (sub_route a) url) eqn:Hm.
    + destruct (on_url_matched a url w Hm (P a (or_introl eq_refl)))
        as (Hl & Hr & Hn & Ho & Hs & Hj & Hp & Hh & _).
      assert (P1 : forall s, In s l ->
                promises (on_url' a url w) (sub_id s) = Pending).
      { intros s Hin. rewrite Hp.
        destruct (Nat.eqb_spec (sub_id s) (sub_id a)) as [e|_].
        - exfalso. apply Hnotin. rewrite <- e. apply in_map. exact Hin.
        - apply P. right; exact Hin. }
      destruct (IH (on_url' a url w) ND' P1)
        as (Il & Ir & In' & Io & Is & Ij & Ip & Ih).
      repeat split; try congruence.
      * rewrite Ij, Hj, <- app_assoc. reflexivity.
      * intros k. rewrite Ip. simpl.
        destruct (Nat.eqb_spec (sub_id a) k) as [e|ne].
        -- destruct (find _ (firing' url l)) as [s|] eqn:F.
           ++ exfalso. apply find_id_In in F. destruct F as [F1 F2].
              apply firing_In in F1. destruct F1 as [F1 _].
              apply Hnotin. rewrite e, <- F2. apply in_map. exact F1.
           ++ rewrite Hp. subst k. rewrite Nat.eqb_refl. reflexivity.
        -- destruct (find _ (firing' url l)); [reflexivity |].
           rewrite Hp. destruct (Nat.eqb_spec k (sub_id a)); congruence.
      * rewrite Ih, Hh. destruct (truthy _); simpl;
          rewrite <- ?app_assoc; reflexivity.
    + rewrite (on_url_unmatched a url w Hm).
      apply IH; [exact ND' |]. intros s Hin. apply P. right; exact Hin.
Qed.

(** *** Removing listeners *)

Lemma NoDup_map_filter (p : Subscription -> bool) (l : list Subscription) :
  NoDup (map sub_id l) -> NoDup (map sub_id (filter p l)).
Proof.
  induction l as [| a l IH]; simpl; intros ND; [constructor |].
  inversion ND as [| x xs Hnotin ND']; subst.
  destruct (p a); simpl; [| auto].
  constructor; [| auto].
  intros Hin. apply Hnotin.
  apply in_map_iff in Hin. destruct Hin as (s & Hs & Hin).
  apply filter_In in Hin. rewrite <- Hs. apply in_map. tauto.
Qed.

Lemma sub_id_inj (l : list Subscription) s s' :
  NoDup (map sub_id l) -> In s l -> In s' l -> sub_id s = sub_id s' -> s = s'.
Proof.
  induction l as [| a l IH]; simpl; intros ND H1 H2 e; [contradiction |].
  inversion ND as [| x xs Hnotin ND']; subst.
  destruct H1 as [-> | H1], H2 as [-> | H2]; auto.
  - exfalso. apply Hnotin. rewrite e. apply in_map. exact H2.
  - exfalso. apply Hnotin. rewrite <- e. apply in_map. exact H1.
Qed.

Lemma remove_ids_In js : forall (l : list Subscription) s,
  In s (remove_ids js l) <-> In s l /\ ~ In (sub_id s) js.
Proof.
  induction js as [| j js IH]; intros l s; simpl.
  - tauto.
  - unfold remove_ids in *; simpl. rewrite IH, filter_In, negb_true_iff, Nat.eqb_neq.
    intuition congruence.
Qed.

Lemma remove_ids_NoDup js : forall l : list Subscription,
  NoDup (map sub_id l) -> NoDup (map sub_id (remove_ids js l)).
Proof.
  induction js as [| j js IH]; intros l ND; simpl; [exact ND |].
  unfold remove_ids in *; simpl. apply IH. apply NoDup_map_filter. exact ND.
Qed.

Lemma remove_fold js : forall w : World,
  let w' := fold_left (fun w' id => remove id w') js w in
  listeners w' = remove_ids js (listeners w)
  /\ removed w' = (removed w ++ js)%list
  /\ promises w' = promises w /\ handled w' = handled w
  /\ state w' = state w /\ next_id w' = next_id w
  /\ opened w' = opened w /\ seed w' = seed w.
Proof.
  induction js as [| j js IH]; intros w; simpl.
  - rewrite app_nil_r. repeat split; reflexivity.
  - destruct (IH (remove j w)) as (H1 & H2 & H3 & H4 & H5 & H6 & H7 & H8).
    simpl in *. repeat split; try assumption.
    rewrite H2, <- app_assoc. reflexivity.
Qed.

(** *** One turn: the event, then the queued removals *)

Lemma deliver_spec url (w : World) :
  Inv w ->
  let w' := deliver E appUrl protocol url w in
  let js := map sub_id (firing' url (listeners w)) in
  let err := truthy (get (params_of url) "errorCode") in
  listeners w' = remove_ids js (listeners w)
  /\ removed w' = (removed w ++ js)%list
  /\ jobs w' = []
  /\ next_id w' = next_id w /\ opened w' = opened w /\ seed w' = seed w
  /\ (forall k, promises w' k =
        match find (fun s => Nat.eqb (sub_id s) k) (firing' url (listeners w)) with
        | Some s => response_outcome (sub_handler s) (params_of url)
        | None => promises w k
        end)
  /\ handled w' = (handled w ++ if err then [] else js)%list.
Proof.
  intros I. destruct I as [Ij Ind Ik If].
  assert (P : forall s, In s (listeners w) -> promises w (sub_id s) = Pending).
  { intros s Hin.
    assert (Hs : subscribed (sub_id s) w) by (apply in_map; exact Hin).
    destruct (Nat.lt_ge_cases (sub_id s) (next_id w)) as [Hlt | Hge].
    - destruct (Ik _ Hlt) as [(_ & Hp & _) | (Hn & _)]; [exact Hp | contradiction].
    - destruct (If _ Hge) as (Hn & _); contradiction. }
  destruct (emit_fold url (listeners w) w Ind P)
    as (Hl & Hr & Hn & Ho & Hs & Hj & Hp & Hh).
  fold (emit E appUrl protocol url w) in Hl, Hr, Hn, Ho, Hs, Hj, Hp, Hh.
  rewrite Ij in Hj; simpl in Hj.
  unfold deliver, run_jobs; simpl.
  destruct (remove_fold (jobs (emit E appUrl protocol url w))
              (emit E appUrl protocol url w))
    as (R1 & R2 & R3 & R4 & R5 & R6 & R7 & R8).
  rewrite R1, R2, R3, R4, R6, R7, R8, Hj, Hl, Hr, Hn, Ho, Hs, Hh.
  repeat split; try reflexivity. exact Hp.
Qed.

Lemma times_app id (l l' : list nat) :
  times id (l ++ l') = times id l + times id l'.
Proof. apply count_occ_app. Qed.

Lemma times_absent id (l : list nat) : ~ In id l -> times id l = 0.
Proof. apply count_occ_not_In. Qed.

Lemma times_once id (l : list nat) : NoDup l -> In id l -> times id l = 1.
Proof. intros ND. apply NoDup_count_occ'. exact ND. Qed.

Lemma listener_waiting (w : World) s :
  Inv w -> In s (listeners w) -> waiting (sub_id s) w.
Proof.
  intros [Ij Ind Ik If] Hin.
  assert (Hs : subscribed (sub_id s) w) by (apply in_map; exact Hin).
  destruct (Nat.lt_ge_cases (sub_id s) (next_id w)) as [Hlt | Hge].
  - destruct (Ik _ Hlt) as [H | (Hn & _)]; [exact H | contradiction].
  - destruct (If _ Hge) as (Hn & _); contradiction.
Qed.

(** A waiting listener whose route matches the event is settled by it and
    removed in the same turn. *)
Lemma deliver_matched url (w : World) s :
  Inv w -> In s (listeners w) -> matches (sub_route s) url = true ->
  let w' := deliver E appUrl protocol url w in
  promises w' (sub_id s) = response_outcome (sub_handler s) (params_of url)
  /\ ~ subscribed (sub_id s) w'
  /\ times (sub_id s) (removed w') = 1
  /\ times (sub_id s) (handled w') =
       if truthy (get (params_of url) "errorCode") then 0 else 1.
Proof.
  intros I Hin Hm.
  destruct (listener_waiting w s I Hin) as (_ & _ & Hr0 & Hh0).
  destruct (deliver_spec url w I) as (Hl & Hr & _ & _ & _ & _ & Hp & Hh).
  assert (ND : NoDup (map sub_id (listeners w))) by apply I.
  assert (F : In s (firing' url (listeners w))) by (apply firing_In; auto).
  assert (J : In (sub_id s) (map sub_id (firing' url (listeners w))))
    by (apply in_map; exact F).
  assert (T : times (sub_id s) (map sub_id (firing' url (listeners w))) = 1).
  { apply times_once; [| exact J]. apply NoDup_map_filter. exact ND. }
  cbv zeta. repeat split.
  - rewrite Hp.
    destruct (find _ (firing' url (listeners w))) as [s'|] eqn:Fd.
    + apply find_id_In in Fd. destruct Fd as [F1 F2].
      apply firing_In in F1. destruct F1 as [F1 _].
      rewrite (sub_id_inj (listeners w) s' s ND F1 Hin F2). reflexivity.
    + apply (find_none _ _ Fd) in F. rewrite Nat.eqb_refl in F. discriminate.
  - unfold subscribed. rewrite Hl. intros H.
    apply in_map_iff in H. destruct H as (s' & e & H).
    apply remove_ids_In in H. destruct H as [_ H]. apply H. rewrite e. exact J.
  - rewrite Hr, times_app, Hr0, T. reflexivity.
  - rewrite Hh, times_app, Hh0.
    destruct (truthy _); [reflexivity | exact T].
Qed.

Lemma not_firing_not_job url (l : list Subscription) id :
  (forall s, In s l -> sub_id s = id -> matches (sub_route s) url = false) ->
  ~ In id (map sub_id (firing' url l)).
Proof.
  intros H Hin. apply in_map_iff in Hin. destruct Hin as (s & e & Hin).
  apply firing_In in Hin. destruct Hin as [Hin Hm].
  rewrite (H s Hin e) in Hm. discriminate.
Qed.

(** What a turn leaves alone: a waiter none of whose listeners matches. *)
Lemma deliver_untouched url (w : World) id :
  Inv w ->
  (forall s, In s (listeners w) -> sub_id s = id ->
             matches (sub_route s) url = false) ->
  let w' := deliver E appUrl protocol url w in
  promises w' id = promises w id
  /\ (forall s, sub_id s = id -> (In s (listeners w') <-> In s (listeners w)))
  /\ times id (removed w') = times id (removed w)
  /\ times id (handled w') = times id (handled w).
Proof.
  intros I H.
  destruct (deliver_spec url w I) as (Hl & Hr & _ & _ & _ & _ & Hp & Hh).
  pose proof (not_firing_not_job url (listeners w) id H) as NJ.
  cbv zeta. repeat split.
  - rewrite Hp.
    destruct (find _ (firing' url (listeners w))) as [s'|] eqn:Fd;
      [| reflexivity].
    apply find_id_In in Fd. destruct Fd as [F1 F2].
    exfalso. apply NJ. rewrite <- F2. apply in_map. exact F1.
  - rewrite Hl. intros Hin. apply remove_ids_In in Hin. tauto.
  - rewrite Hl. intros Hin. apply remove_ids_In. subst id. tauto.
  - rewrite Hr, times_app, (times_absent _ _ NJ). lia.
  - rewrite Hh, times_app. destruct (truthy _); simpl; [lia |].
    rewrite (times_absent _ _ NJ). lia.
Qed.

Lemma subscribed_iff (w w' : World) id :
  (forall s, sub_id s = id -> (In s (listeners w') <-> In s (listeners w))) ->
  subscribed id w' <-> subscribed id w.
Proof.
  intros H. unfold subscribed. rewrite !in_map_iff.
  split; intros (s & e & Hin); exists s; split; auto; apply (H s e); exact Hin.
Qed.

Lemma Inv_deliver url (w : World) :
  Inv w -> Inv (deliver E appUrl protocol url w).
Proof.
  intros I.
  destruct (deliver_spec url w I) as (Hl & Hr & Hj & Hn & _ & _ & Hp & Hh).
  assert (ND : NoDup (map sub_id (listeners w))) by apply I.
  assert (U : forall id, ~ subscribed id w ->
            forall s, In s (listeners w) -> sub_id s = id ->
                      matches (sub_route s) url = false).
  { intros id Hns s Hin e. exfalso. apply Hns. rewrite <- e.
    apply in_map. exact Hin. }
  constructor.
  - exact Hj.
  - rewrite Hl. apply remove_ids_NoDup. exact ND.
  - intros id Hlt. rewrite Hn in Hlt.
    destruct (inv_known I Hlt) as [W | D].
    + destruct W as (Hs & Hpd & Hr0 & Hh0).
      apply in_map_iff in Hs. destruct Hs as (s & e & Hin). subst id.
      destruct (matches (sub_route s) url) eqn:Hm.
      * right. destruct (deliver_matched url w s I Hin Hm) as (A & B & C & D).
        repeat split; auto.
        -- unfold settled. rewrite A. apply response_outcome_settled.
        -- rewrite D. destruct (truthy _); lia.
      * left.
        assert (H : forall s', In s' (listeners w) -> sub_id s' = sub_id s ->
                      matches (sub_route s') url = false).
        { intros s' Hin' e. rewrite (sub_id_inj (listeners w) s' s ND Hin' Hin e). exact Hm. }
        destruct (deliver_untouched url w (sub_id s) I H) as (A & B & C & D).
        repeat split; try congruence.
        apply (subscribed_iff _ _ _ B). apply in_map. exact Hin.
    + right. destruct D as (Hns & Hst & Hr1 & Hh1).
      destruct (deliver_untouched url w id I (U _ Hns)) as (A & B & C & D).
      repeat split; try congruence.
      rewrite (subscribed_iff _ _ _ B). exact Hns.
  - intros id Hge. rewrite Hn in Hge.
    destruct (inv_fresh I Hge) as (Hns & Hr0 & Hh0).
    destruct (deliver_untouched url w id I (U _ Hns)) as (A & B & C & D).
    repeat split; try congruence.
    rewrite (subscribed_iff _ _ _ B). exact Hns.
Qed.

(** *** The invariant along the steps *)

Lemma Inv_init : Inv (@init PublicKey Transaction).
Proof.
  constructor; simpl.
  - reflexivity.
  - constructor.
  - intros id H. inversion H.
  - intros id _. unfold subscribed; simpl. tauto.
Qed.

Lemma Inv_frame (w w' : World) :
  listeners w' = listeners w -> promises w' = promises w ->
  jobs w' = jobs w -> next_id w' = next_id w ->
  removed w' = removed w -> handled w' = handled w ->
  Inv w -> Inv w'.
Proof.
  intros Hl Hp Hj Hn Hr Hh [Ij Ind Ik If].
  constructor; unfold waiting, done, subscribed, settled in *;
    rewrite ?Hl, ?Hp, ?Hj, ?Hn, ?Hr, ?Hh; assumption.
Qed.

Lemma Inv_openURL url (w : World) : Inv w -> Inv (openURL url w).
Proof. apply Inv_frame; reflexivity. Qed.

Lemma Inv_draw (w : World) : Inv w -> Inv (snd (draw w)).
Proof. apply Inv_frame; reflexivity. Qed.

Lemma Inv_disconnect (w : World) : Inv w -> Inv (disconnect w).
Proof. apply Inv_frame; reflexivity. Qed.

(** A call of [waitForResponse] adds one waiting listener, named by the
    next free number. *)
Lemma waitForResponse_spec route (handler : Handler) (w : World) :
  Inv w ->
  let id := fst (waitForResponse route handler w) in
  let w' := snd (waitForResponse route handler w) in
  id = next_id w
  /\ Inv w'
  /\ In {| sub_id := id; sub_route := route; sub_handler := handler |}
        (listeners w')
  /\ next_id w' = S (next_id w).
Proof.
  intros I. pose proof I as [Ij Ind Ik If]. cbv zeta; simpl.
  destruct (If (next_id w) (Nat.le_refl _)) as (Hns & Hr0 & Hh0).
  split; [reflexivity |]. split; [| split; [| reflexivity]].
  - constructor; simpl.
    + exact Ij.
    + rewrite map_app; simpl. apply NoDup_app; auto.
      * constructor; [intros [] | constructor].
      * intros a Ha [<- | []]. exact (Hns Ha).
    + intros id Hlt. unfold waiting, done, subscribed, settled; simpl.
      rewrite map_app, in_app_iff; simpl.
      destruct (Nat.eqb_spec id (next_id w)) as [-> | ne].
      * left. repeat split; auto.
      * assert (Hlt' : id < next_id w) by lia.
        destruct (Ik id Hlt') as [(A & B & C & D) | (A & B & C & D)];
          [left | right]; repeat split; auto.
        intros [H | [H | []]]; [exact (A H) | congruence].
    + intros id Hge. unfold subscribed; simpl.
      rewrite map_app, in_app_iff; simpl.
      assert (Hge' : next_id w <= id) by lia.
      destruct (If id Hge') as (A & B & C).
      repeat split; auto.
      intros [H | [H | []]]; [exact (A H) | lia].
  - apply in_or_app. right. left. reflexivity.
Qed.

Lemma Inv_waitForResponse route (handler : Handler) (w : World) :
  Inv w -> Inv (snd (waitForResponse route handler w)).
Proof. intros I. apply (waitForResponse_spec route handler w I). Qed.

Lemma Inv_connect (w : World) :
  Inv w -> Inv (snd (connect E cluster appUrl protocol w)).
Proof.
  intros I. unfold connect; simpl.
  apply Inv_openURL.
  apply (Inv_waitForResponse _ _ (snd (draw w))). apply Inv_draw. exact I.
Qed.

Lemma Inv_signTransaction t (w : World) :
  Inv w -> Inv (snd (signTransaction E protocol t w)).
Proof.
  intros I. unfold signTransaction.
  destruct (Transaction_serialize E t) as [raw | e]; [| exact I].
  destruct (not_connected (state w)); [exact I |].
  destruct (sharedSecret (state w)); [| exact I].
  destruct (keypair (state w)); [| exact I]. simpl.
  apply Inv_openURL.
  apply (Inv_waitForResponse _ _ (snd (draw w))). apply Inv_draw. exact I.
Qed.

Lemma Inv_signMessage m (w : World) :
  Inv w -> Inv (snd (signMessage E protocol m w)).
Proof.
  intros I. unfold signMessage.
  destruct (not_connected (state w)); [exact I |].
  destruct (sharedSecret (state w)); [| exact I].
  destruct (keypair (state w)); [| exact I]. simpl.
  apply Inv_openURL.
  apply (Inv_waitForResponse _ _ (snd (draw w))). apply Inv_draw. exact I.
Qed.

Abbreviation step' := (step E cluster appUrl protocol).
Abbreviation steps' := (steps E cluster appUrl protocol).

Lemma Inv_step (w w' : World) : step' w w' -> Inv w -> Inv w'.
Proof.
  intros S I. destruct S.
  - apply Inv_connect; exact I.
  - apply Inv_signTransaction; exact I.
  - apply Inv_signMessage; exact I.
  - apply Inv_disconnect; exact I.
  - apply Inv_waitForResponse; exact I.
  - apply Inv_deliver; exact I.
Qed.

Lemma Inv_steps (w w' : World) : steps' w w' -> Inv w -> Inv w'.
Proof.
  induction 1; intros I; [exact I |].
  eapply Inv_step; eauto.
Qed.

Lemma reachable_Inv (w : World) :
  reachable E cluster appUrl protocol w -> Inv w.
Proof. intros R. exact (Inv_steps _ _ R Inv_init). Qed.

Lemma next_id_step (w w' : World) : step' w w' -> next_id w <= next_id w'.
Proof.
  intros S. destruct S as [w | t w | m w | w | route handler w | u w];
    simpl; auto.
  - unfold signTransaction.
    destruct (Transaction_serialize E t) as [raw | e]; [| auto].
    destruct (not_connected (state w)); [auto |].
    destruct (sharedSecret (state w)); [| auto].
    destruct (keypair (state w)); simpl; auto.
  - unfold signMessage.
    destruct (not_connected (state w)); [auto |].
    destruct (sharedSecret (state w)); [| auto].
    destruct (keypair (state w)); simpl; auto.
  - unfold deliver, run_jobs; simpl.
    destruct (remove_fold (jobs (emit E appUrl protocol u w))
                (emit E appUrl protocol u w))
      as (_ & _ & _ & _ & _ & R & _).
    rewrite R. clear R. unfold emit.
    generalize (listeners w) at 1. intros l. revert w.
    induction l as [| a l IH]; intros w; simpl; [auto |].
    etransitivity; [| apply IH].
    unfold on_url.
    destruct (URL_new E _); [| auto].
    destruct (negb _); [auto |].
    destruct (truthy _).
    + unfold settle. destruct (promises w (sub_id a)); simpl; auto.
    + unfold run_handler. destruct (sub_handler a _) as [[v|e] sets];
        unfold settle; simpl; destruct (promises w (sub_id a)); simpl; auto.
Qed.

Lemma next_id_steps (w w' : World) : steps' w w' -> next_id w <= next_id w'.
Proof.
  induction 1; [auto |].
  etransitivity; [eassumption | apply next_id_step; assumption].
Qed.

(** *** Streams of events *)

Abbreviation deliver_all' := (deliver_all E appUrl protocol).

Lemma deliver_all_app (a b : list string) (w : World) :
  deliver_all' (a ++ b) w = deliver_all' b (deliver_all' a w).
Proof. apply fold_left_app. Qed.

Lemma deliver_all_cons u (urls : list string) (w : World) :
  deliver_all' (u :: urls) w = deliver_all' urls (deliver E appUrl protocol u w).
Proof. reflexivity. Qed.

Lemma deliver_all_nil (w : World) : deliver_all' [] w = w.
Proof. reflexivity. Qed.

Lemma Inv_deliver_all (urls : list string) :
  forall w : World, Inv w -> Inv (deliver_all' urls w).
Proof.
  induction urls as [| u urls IH]; intros w I; simpl; [exact I |].
  apply IH. apply Inv_deliver. exact I.
Qed.

(** Once a waiter is unsubscribed, no event reaches it. *)
Lemma deliver_all_unsubscribed (urls : list string) id :
  forall w : World, Inv w -> ~ subscribed id w ->
  let w' := deliver_all' urls w in
  promises w' id = promises w id /\ ~ subscribed id w'
  /\ times id (removed w') = times id (removed w)
  /\ times id (handled w') = times id (handled w).
Proof.
  induction urls as [| u urls IH]; intros w I Hns; simpl; [auto |].
  assert (U : forall s, In s (listeners w) -> sub_id s = id ->
                matches (sub_route s) u = false).
  { intros s Hin e. exfalso. apply Hns. rewrite <- e. apply in_map. exact Hin. }
  destruct (deliver_untouched u w id I U) as (A & B & C & D).
  assert (Hns' : ~ subscribed id (deliver E appUrl protocol u w))
    by (rewrite (subscribed_iff _ _ _ B); exact Hns).
  destruct (IH _ (Inv_deliver u w I) Hns') as (A' & B' & C' & D').
  repeat split; congruence.
Qed.

(** Events that do not match leave a listener where it is. *)
Lemma deliver_all_unmatched (urls : list string) (s : Subscription) :
  forall w : World, Inv w -> In s (listeners w) ->
  (forall u, In u urls -> matches (sub_route s) u = false) ->
  In s (listeners (deliver_all' urls w)).
Proof.
  induction urls as [| u urls IH]; intros w I Hin Hu; simpl; [exact Hin |].
  apply IH.
  - apply Inv_deliver; exact I.
  - assert (ND : NoDup (map sub_id (listeners w))) by apply I.
    assert (H : forall s', In s' (listeners w) -> sub_id s' = sub_id s ->
                  matches (sub_route s') u = false).
    { intros s' Hin' e. rewrite (sub_id_inj (listeners w) s' s ND Hin' Hin e).
      apply Hu. left; reflexivity. }
    destruct (deliver_untouched u w (sub_id s) I H) as (_ & B & _).
    apply (B s eq_refl). exact Hin.
  - intros u' Hin'. apply Hu. right; exact Hin'.
Qed.

(** The promise of a listener after a stream is what the stream says. *)
Lemma deliver_all_first_match (urls : list string) (s : Subscription) :
  forall w : World, Inv w -> In s (listeners w) ->
  promises (deliver_all' urls w) (sub_id s)
  = first_match E appUrl protocol (sub_route s) (sub_handler s) urls.
Proof.
  induction urls as [| u urls IH]; intros w I Hin; simpl.
  - apply (listener_waiting w s I Hin).
  - destruct (matches (sub_route s) u) eqn:Hm.
    + destruct (deliver_matched u w s I Hin Hm) as (A & B & _).
      destruct (deliver_all_unsubscribed urls (sub_id s) _
                  (Inv_deliver u w I) B) as (A' & _).
      rewrite A'. exact A.
    + apply IH; [apply Inv_deliver; exact I |].
      apply (deliver_all_unmatched [u] s w I Hin).
      intros u' [<- | []]. exact Hm.
Qed.

Lemma first_match_filter route (handler : Handler) (urls : list string) :
  first_match E appUrl protocol route handler urls
  = first_match E appUrl protocol route handler (filter (matches route) urls).
Proof.
  induction urls as [| u urls IH]; simpl; [reflexivity |].
  destruct (matches route u) eqn:Hm; simpl; rewrite ?Hm; auto.
Qed.

(** *** The claims about [waitForResponse] *)

Abbreviation reachable' := (reachable E cluster appUrl protocol).

(** C5, amended. After a call of [waitForResponse] in a reachable world, the
    first event whose path matches the route decides: when its [errorCode]
    parameter is a non-empty string the promise is rejected with 'Error in
    Phantom Response' and the handler is not run; otherwise (the parameter
    is absent or empty) the handler is run once on the event's parameters
    and the promise takes its result or its exception. The later events
    change neither the promise nor the number of runs, and the listener is
    gone. *)
Theorem first_matching_event_decides (w : World) (route : string)
    (handler : Handler) (pre post : list string) (url : string) :
  reachable' w ->
  (forall u, In u pre -> matches route u = false) ->
  matches route url = true ->
  let id := fst (waitForResponse route handler w) in
  let w1 := snd (waitForResponse route handler w) in
  let w2 := deliver_all' (pre ++ url :: post) w1 in
  let params := params_of url in
  (truthy (get params "errorCode") = true ->
     promises w2 id = Rejected RemoteError /\ times id (handled w2) = 0)
  /\ (truthy (get params "errorCode") = false ->
     promises w2 id = outcome (fst (handler params))
     /\ times id (handled w2) = 1)
  /\ ~ subscribed id w2
  /\ promises w2 id = promises (deliver_all' (pre ++ [url]) w1) id.
Proof.
  intros R Hpre Hm.
  destruct (waitForResponse_spec route handler w (reachable_Inv w R))
    as (Hid & I1 & Hin & _).
  cbv zeta.
  set (id := fst (waitForResponse route handler w)) in *.
  set (w1 := snd (waitForResponse route handler w)) in *.
  rewrite !deliver_all_app, !deliver_all_cons, deliver_all_nil.
  set (s := {| sub_id := id; sub_route := route; sub_handler := handler |}) in *.
  pose proof (Inv_deliver_all pre w1 I1) as Ip.
  pose proof (deliver_all_unmatched pre s w1 I1 Hin Hpre) as Hinp.
  destruct (deliver_matched url _ s Ip Hinp Hm) as (A & B & C & D).
  destruct (deliver_all_unsubscribed post id _
              (Inv_deliver url _ Ip) B) as (A' & B' & C' & D').
  change (sub_id s) with id in *. change (sub_handler s) with handler in *.
  rewrite A', D', A, D. unfold response_outcome.
  split; [intros ->; split; reflexivity |].
  split; [intros ->; split; reflexivity |].
  split; [exact B' | reflexivity].
Qed.

(** C6. After a call of [waitForResponse] in a reachable world and any
    further steps (operations and events), a settled promise has its
    listener unsubscribed and [remove] was called for it exactly once, and a
    pending promise still has its listener with no call of [remove]. *)
Theorem subscription_removed_exactly_once (w w2 : World) (route : string)
    (handler : Handler) :
  reachable' w ->
  steps' (snd (waitForResponse route handler w)) w2 ->
  let id := fst (waitForResponse route handler w) in
  (settled id w2 -> ~ subscribed id w2 /\ times id (removed w2) = 1)
  /\ (promises w2 id = Pending ->
      subscribed id w2 /\ times id (removed w2) = 0).
Proof.
  intros R S.
  destruct (waitForResponse_spec route handler w (reachable_Inv w R))
    as (Hid & I1 & _ & Hn).
  pose proof (Inv_steps _ _ S I1) as I2.
  pose proof (next_id_steps _ _ S) as Hle.
  cbv zeta. set (id := fst (waitForResponse route handler w)) in *.
  assert (Hlt : id < next_id w2) by lia.
  destruct (inv_known I2 Hlt) as [(A & B & C & D) | (A & B & C & D)]; split.
  - intros H. contradiction.
  - auto.
  - auto.
  - intros H. contradiction.
Qed.

(** C7. Two calls of [waitForResponse] in a reachable world, then any
    stream of events: the promise of each waiter is the outcome of the first
    event of the stream that matches its own route, computed on the events
    that match its route alone; and an event that does not match a waiter's
    route leaves the world as it is when that waiter's listener runs. *)
Theorem route_isolation (w : World) (routeA routeB : string)
    (handlerA handlerB : Handler) (urls : list string) :
  reachable' w ->
  let a := fst (waitForResponse routeA handlerA w) in
  let w1 := snd (waitForResponse routeA handlerA w) in
  let b := fst (waitForResponse routeB handlerB w1) in
  let w2 := snd (waitForResponse routeB handlerB w1) in
  let w3 := deliver_all' urls w2 in
  promises w3 a
    = first_match E appUrl protocol routeA handlerA (filter (matches routeA) urls)
  /\ promises w3 b
    = first_match E appUrl protocol routeB handlerB (filter (matches routeB) urls)
  /\ (forall u w', matches routeA u = false ->
        on_url' {| sub_id := a; sub_route := routeA; sub_handler := handlerA |}
          u w' = w')
  /\ (forall u w', matches routeB u = false ->
        on_url' {| sub_id := b; sub_route := routeB; sub_handler := handlerB |}
          u w' = w').
Proof.
  intros R.
  destruct (waitForResponse_spec routeA handlerA w (reachable_Inv w R))
    as (_ & I1 & HinA & _).
  destruct (waitForResponse_spec routeB handlerB _ I1) as (_ & I2 & HinB & _).
  cbv zeta. rewrite <- !first_match_filter.
  repeat split.
  - apply (deliver_all_first_match urls
             {| sub_id := fst (waitForResponse routeA handlerA w);
                sub_route := routeA; sub_handler := handlerA |} _ I2).
    simpl. apply in_or_app. left. exact HinA.
  - apply (deliver_all_first_match urls
             {| sub_id := fst (waitForResponse routeB handlerB
                                 (snd (waitForResponse routeA handlerA w)));
                sub_route := routeB; sub_handler := handlerB |} _ I2 HinB).
  - intros u w' H. apply on_url_unmatched. exact H.
  - intros u w' H. apply on_url_unmatched. exact H.
Qed.

End Waiter.

(** * The session fields *)

Section Establish.

Context {PublicKey Transaction : Type}.
Variable E : Externals PublicKey Transaction.
Variables (cluster appUrl protocol : string).

Abbreviation World := (@World PublicKey Transaction).
Abbreviation Subscription := (@Subscription PublicKey Transaction).
Abbreviation Handler := (@PhantomResponseHandler PublicKey Transaction).
Abbreviation on_url' := (on_url E appUrl protocol).
Abbreviation deliver' := (deliver E appUrl protocol).
Abbreviation deliver_all' := (deliver_all E appUrl protocol).

(** ** Events and the state *)

Lemma on_url_listeners (s : Subscription) url (w : World) :
  listeners (on_url' s url w) = listeners w.
Proof.
  unfold on_url.
  destruct (URL_new E _); [| reflexivity].
  destruct (negb _); [reflexivity |].
  destruct (truthy _).
  - unfold settle. destruct (promises w (sub_id s)); reflexivity.
  - unfold run_handler. destruct (sub_handler s _) as [[v|e] sets];
      unfold settle; simpl; destruct (promises w (sub_id s)); reflexivity.
Qed.

(** The setter calls a listener makes on one event. *)
Lemma on_url_state (s : Subscription) url (w : World) :
  state (on_url' s url w)
  = apply_actions (state w) (writes E appUrl protocol s url).
Proof.
  unfold on_url, writes, route_matches, event_params.
  destruct (URL_new E _) as [u|]; [| reflexivity].
  destruct (RegExp_test E _ _); simpl; [| reflexivity].
  destruct (truthy _).
  - unfold settle. destruct (promises w (sub_id s)); reflexivity.
  - unfold run_handler.
    destruct (sub_handler s _) as [[v|e] sets]; simpl;
      unfold settle; simpl; destruct (promises w (sub_id s)); reflexivity.
Qed.

Lemma apply_actions_app (st : ProviderState PublicKey) l l' :
  apply_actions st (l ++ l') = apply_actions (apply_actions st l) l'.
Proof. apply fold_left_app. Qed.

Lemma emit_fold_state url (l : list Subscription) :
  forall w : World,
  let w' := fold_left (fun w' s => on_url' s url w') l w in
  state w'
  = apply_actions (state w) (flat_map (fun s => writes E appUrl protocol s url) l)
  /\ listeners w' = listeners w.
Proof.
  induction l as [| a l IH]; intros w; simpl; [auto |].
  destruct (IH (on_url' a url w)) as [A B]. simpl in A, B.
  rewrite A, B, on_url_listeners, on_url_state, apply_actions_app. auto.
Qed.

Lemma remove_fold_subset (js : list nat) :
  forall (w : World) s,
  In s (listeners (fold_left (fun w' id => remove id w') js w)) ->
  In s (listeners w).
Proof.
  induction js as [| j js IH]; intros w s; simpl; [auto |].
  intros H. apply IH in H. simpl in H. apply filter_In in H. tauto.
Qed.

Lemma remove_fold_state (js : list nat) :
  forall w : World,
  state (fold_left (fun w' id => remove id w') js w) = state w.
Proof.
  induction js as [| j js IH]; intros w; simpl; [auto |].
  rewrite IH. reflexivity.
Qed.

Lemma deliver_state url (w : World) :
  state (deliver' url w)
  = apply_actions (state w)
      (flat_map (fun s => writes E appUrl protocol s url) (listeners w)).
Proof.
  destruct (emit_fold_state url (listeners w) w) as [A _].
  fold (emit E appUrl protocol url w) in A.
  unfold deliver, run_jobs; simpl. rewrite remove_fold_state. exact A.
Qed.

Lemma deliver_listeners url (w : World) s :
  In s (listeners (deliver' url w)) -> In s (listeners w).
Proof.
  destruct (emit_fold_state url (listeners w) w) as [_ B].
  fold (emit E appUrl protocol url w) in B.
  unfold deliver, run_jobs; simpl. intros H.
  apply remove_fold_subset in H. rewrite B in H. exact H.
Qed.

Lemma writes_nothing_writes (s : Subscription) url :
  writes_nothing s -> writes E appUrl protocol s url = [].
Proof.
  intros Q. unfold writes.
  destruct (route_matches _ _ _ _ _); [| reflexivity].
  destruct (truthy _); [reflexivity | apply Q].
Qed.

Lemma quiet_flat_map url (l : list Subscription) :
  (forall s, In s l -> writes E appUrl protocol s url = []) ->
  flat_map (fun s => writes E appUrl protocol s url) l = [].
Proof.
  induction l as [| a l IH]; intros Q; simpl; [reflexivity |].
  rewrite (Q a (or_introl eq_refl)), IH; [reflexivity |].
  intros s Hin. apply Q. right; exact Hin.
Qed.

Lemma deliver_quiet url (w : World) :
  (forall s, In s (listeners w) -> writes_nothing s) ->
  state (deliver' url w) = state w
  /\ (forall s, In s (listeners (deliver' url w)) -> writes_nothing s).
Proof.
  intros Q. split.
  - rewrite deliver_state, quiet_flat_map; [reflexivity |].
    intros s Hin. apply writes_nothing_writes. apply Q. exact Hin.
  - intros s Hin. apply Q. apply (deliver_listeners url w s Hin).
Qed.

Lemma deliver_all_quiet (urls : list string) :
  forall w : World,
  (forall s, In s (listeners w) -> writes_nothing s) ->
  state (deliver_all' urls w) = state w.
Proof.
  induction urls as [| u urls IH]; intros w Q; simpl; [reflexivity |].
  destruct (deliver_quiet u w Q) as [A B].
  rewrite (IH _ B). exact A.
Qed.

(** ** The sign operations *)

Lemma sign_handlers_write_nothing (secret : bytes) (params : URLSearchParams) :
  snd (signTransaction_onResponse E secret params) = []
  /\ snd (signMessage_responseHandler E secret params) = [].
Proof. split; reflexivity. Qed.

Lemma signTransaction_listeners t (w : World) s :
  In s (listeners (snd (signTransaction E protocol t w))) ->
  In s (listeners w) \/ writes_nothing s.
Proof.
  unfold signTransaction.
  destruct (Transaction_serialize E t) as [raw | e]; [| auto].
  destruct (not_connected (state w)); [auto |].
  destruct (sharedSecret (state w)); [| auto].
  destruct (keypair (state w)); [| auto]. simpl.
  intros H. apply in_app_or in H. destruct H as [H | [<- | []]]; [auto |].
  right. intros params. reflexivity.
Qed.

Lemma signMessage_listeners m (w : World) s :
  In s (listeners (snd (signMessage E protocol m w))) ->
  In s (listeners w) \/ writes_nothing s.
Proof.
  unfold signMessage.
  destruct (not_connected (state w)); [auto |].
  destruct (sharedSecret (state w)); [| auto].
  destruct (keypair (state w)); [| auto]. simpl.
  intros H. apply in_app_or in H. destruct H as [H | [<- | []]]; [auto |].
  right. intros params. reflexivity.
Qed.

Lemma sign_call_keeps_state t m (w : World) :
  state (snd (signTransaction E protocol t w)) = state w
  /\ state (snd (signMessage E protocol m w)) = state w.
Proof.
  unfold signTransaction, signMessage.
  destruct (Transaction_serialize E t) as [raw | e];
    destruct (not_connected (state w)); auto;
    destruct (sharedSecret (state w)); auto;
    destruct (keypair (state w)); auto.
Qed.

(** C8. A call of [signTransaction] or [signMessage] leaves the four
    session fields as they were; the response handler it registers calls no
    setter, whatever the parameters of the response (so whether it returns
    or throws); and when no other registered handler calls a setter, the
    fields are still the same after any stream of events. *)
Theorem sign_leaves_session (w : World) (transaction : Transaction)
    (message : bytes) :
  (state (snd (signTransaction E protocol transaction w)) = state w
   /\ state (snd (signMessage E protocol message w)) = state w)
  /\ (forall secret params,
       snd (signTransaction_onResponse E secret params) = []
       /\ snd (signMessage_responseHandler E secret params) = [])
  /\ (forall urls,
       (forall s, In s (listeners w) -> writes_nothing s) ->
       state (deliver_all' urls (snd (signTransaction E protocol transaction w)))
       = state w
       /\ state (deliver_all' urls (snd (signMessage E protocol message w)))
          = state w).
Proof.
  destruct (sign_call_keeps_state transaction message w) as [A B].
  split; [split; assumption |].
  split; [apply sign_handlers_write_nothing |].
  intros urls Q. split.
  - rewrite deliver_all_quiet; [exact A |].
    intros s Hin. apply signTransaction_listeners in Hin.
    destruct Hin; auto.
  - rewrite deliver_all_quiet; [exact B |].
    intros s Hin. apply signMessage_listeners in Hin.
    destruct Hin; auto.
Qed.

(** ** connect *)

(** The four ways [onResponse] of [connect] can end: before the first
    setter; after [setKeypair] and [setSharedSecret], on reading [session]
    from a [null] payload; after [setSession], on the public key of the
    payload; or with the four setters called. *)
Lemma connect_onResponse_cases (kp : BoxKeyPair) (params : URLSearchParams) :
  (exists e, connect_onResponse E kp params = (Throw e, []))
  \/ (exists secret e,
        connect_onResponse E kp params
        = (Throw e, [SetKeypair (Some kp); SetSharedSecret (Some secret)]))
  \/ (exists secret sess e,
        connect_onResponse E kp params
        = (Throw e, [SetKeypair (Some kp); SetSharedSecret (Some secret);
                     SetSession sess]))
  \/ (exists secret sess pk,
        connect_onResponse E kp params
        = (Ok VVoid, [SetKeypair (Some kp); SetSharedSecret (Some secret);
                      SetSession sess; SetPublicKey (Some pk)])).
Proof.
  unfold connect_onResponse, lift, ebind, eret, setKeypair, setSharedSecret,
    setSession, setPublicKey, call_setter.
  destruct (rbind (bs58_decode_arg E _) _) as [secret | e];
    [| left; eexists; reflexivity].
  destruct (decryptPayload E _ _ secret) as [connectData | e];
    [| left; eexists; reflexivity].
  destruct (get_prop connectData "session") as [sess | e]; simpl;
    [| right; left; do 2 eexists; reflexivity].
  destruct (get_prop connectData "public_key") as [key | e]; simpl;
    [| right; right; left; do 3 eexists; reflexivity].
  destruct (PublicKey_new E key) as [pk | e]; simpl.
  - right; right; right. do 3 eexists; reflexivity.
  - right; right; left. do 3 eexists; reflexivity.
Qed.

(** A response that fails before the payload is decrypted calls no setter. *)
Lemma connect_onResponse_early_failure (kp : BoxKeyPair)
    (params : URLSearchParams) e :
  (pk <- bs58_decode_arg E
           (get params ResponseParams.PHANTOM_ENCRYPTION_PUBLIC_KEY) ;;
   secret <- nacl_box_before E pk (box_secretKey kp) ;;
   decryptPayload E (get params ResponseParams.DATA)
     (get params ResponseParams.NONCE) secret)%js = Throw e ->
  connect_onResponse E kp params = (Throw e, []).
Proof.
  unfold connect_onResponse, lift, ebind.
  destruct (bs58_decode_arg E _) as [pk | e0]; simpl;
    [| intros [= ->]; reflexivity].
  destruct (nacl_box_before E pk _) as [secret | e0]; simpl;
    [| intros [= ->]; reflexivity].
  intros ->. reflexivity.
Qed.

(** After [connect] and one event, the state is the old one with the setter
    calls of the older listeners and then those of the new one. *)
Lemma connect_then_response url (w : World) :
  let dAppKeypair := nacl_box_keyPair E (seed w) in
  let s := {| sub_id := next_id w; sub_route := RedirectRoutes.OnConnect;
              sub_handler := connect_onResponse E dAppKeypair |} in
  state (deliver' url (snd (connect E cluster appUrl protocol w)))
  = apply_actions
      (apply_actions (state w)
         (flat_map (fun s' => writes E appUrl protocol s' url) (listeners w)))
      (writes E appUrl protocol s url).
Proof.
  cbv zeta. rewrite deliver_state. unfold connect; simpl.
  rewrite flat_map_app, apply_actions_app; simpl.
  rewrite app_nil_r. reflexivity.
Qed.

(** X14 (what holds of C1). When no older listener calls a setter on the
    event,
    a response to [connect] that carries a non-empty [errorCode], or whose
    key does not decode, or whose secret cannot be derived, or whose payload
    does not decrypt or parse, leaves the four fields as they were. *)
Lemma connect_failure_before_install url (w : World) :
  let dAppKeypair := nacl_box_keyPair E (seed w) in
  let params := event_params E appUrl protocol url in
  (forall s, In s (listeners w) -> writes E appUrl protocol s url = []) ->
  truthy (get params "errorCode") = true
  \/ (exists e,
        (pk <- bs58_decode_arg E
                 (get params ResponseParams.PHANTOM_ENCRYPTION_PUBLIC_KEY) ;;
         secret <- nacl_box_before E pk (box_secretKey dAppKeypair) ;;
         decryptPayload E (get params ResponseParams.DATA)
           (get params ResponseParams.NONCE) secret)%js = Throw e) ->
  state (deliver' url (snd (connect E cluster appUrl protocol w))) = state w.
Proof.
  intros dAppKeypair params Q H.
  rewrite connect_then_response, (quiet_flat_map url _ Q). simpl.
  unfold writes; simpl. fold params dAppKeypair.
  destruct (route_matches _ _ _ _ _); [| reflexivity].
  destruct H as [-> | [e H]]; [reflexivity |].
  destruct (truthy _); [reflexivity |].
  rewrite (connect_onResponse_early_failure dAppKeypair params e H).
  reflexivity.
Qed.

(** And when the handler returns, the four fields are the key pair of the
    call, the derived secret, and the session and key of the payload. *)
Lemma connect_success_installs_session url (w : World) secret sess pk :
  let dAppKeypair := nacl_box_keyPair E (seed w) in
  let params := event_params E appUrl protocol url in
  (forall s, In s (listeners w) -> writes E appUrl protocol s url = []) ->
  route_matches E appUrl protocol RedirectRoutes.OnConnect url = true ->
  truthy (get params "errorCode") = false ->
  connect_onResponse E dAppKeypair params
  = (Ok VVoid, [SetKeypair (Some dAppKeypair); SetSharedSecret (Some secret);
                SetSession sess; SetPublicKey (Some pk)]) ->
  state (deliver' url (snd (connect E cluster appUrl protocol w)))
  = {| publicKey := Some pk; keypair := Some dAppKeypair;
       sharedSecret := Some secret; session := sess |}.
Proof.
  intros dAppKeypair params Q M He H.
  rewrite connect_then_response, (quiet_flat_map url _ Q). simpl.
  unfold writes; simpl. fold params dAppKeypair.
  rewrite M, He, H. reflexivity.
Qed.

(** C1 at the failing inputs. A fresh provider calls [connect]; the response
    on the route [onConnect] has no [errorCode], its key decodes, the shared
    secret is derived and the payload decrypts and parses to [connectData].
    If reading [session] from [connectData] throws [e] (the payload is
    [null]), or [new PublicKey] throws [e] on the [public_key] of
    [connectData], then the promise is rejected with [e] and the state
    holds the key pair and the shared secret of the failed attempt, with
    [publicKey] still [null]. *)
Theorem connect_late_failure_installs_partial_session
    (url : string) (parsedUrl : URL) (pk secret : bytes)
    (connectData : JsVal) (e : JsError) :
  let params := searchParams parsedUrl in
  let dAppKeypair := nacl_box_keyPair E 0 in
  URL_new E (String_replace url protocol appUrl) = Ok parsedUrl ->
  RegExp_test E RedirectRoutes.OnConnect (pathname parsedUrl) = true ->
  truthy (get params "errorCode") = false ->
  bs58_decode_arg E (get params ResponseParams.PHANTOM_ENCRYPTION_PUBLIC_KEY)
    = Ok pk ->
  nacl_box_before E pk (box_secretKey dAppKeypair) = Ok secret ->
  decryptPayload E (get params ResponseParams.DATA)
    (get params ResponseParams.NONCE) secret = Ok connectData ->
  get_prop connectData "session" = Throw e
  \/ (exists sess key,
        get_prop connectData "session" = Ok sess
        /\ get_prop connectData "public_key" = Ok key
        /\ PublicKey_new E key = Throw e) ->
  let w1 := snd (connect E cluster appUrl protocol init) in
  let w2 := deliver' url w1 in
  fst (connect E cluster appUrl protocol init) = Returned 0
  /\ promises w2 0 = Rejected e
  /\ keypair (state w2) = Some dAppKeypair
  /\ sharedSecret (state w2) = Some secret
  /\ publicKey (state w2) = None
  /\ state w2 <> state w1.
Proof.
  intros params dAppKeypair Hu Hr He Hpk Hs Hd Hlate.
  assert (H : exists sets,
            connect_onResponse E dAppKeypair params
            = (Throw e, (SetKeypair (Some dAppKeypair)
                         :: SetSharedSecret (Some secret) :: sets)%list)
            /\ (sets = [] \/ exists sess, sets = [SetSession sess])).
  { unfold connect_onResponse, lift, ebind.
    rewrite Hpk; simpl. rewrite Hs, Hd; simpl.
    destruct Hlate as [Hsess | (sess & key & Hsess & Hkey & Hnew)].
    - rewrite Hsess; simpl. exists []. split; [reflexivity | left; reflexivity].
    - rewrite Hsess; simpl. rewrite Hkey, Hnew.
      exists [SetSession sess]. split; [reflexivity | right; eauto]. }
  destruct H as (sets & H & Hsets).
  cbv zeta. unfold connect, deliver, emit; simpl.
  unfold on_url; simpl. rewrite Hu, Hr; simpl.
  fold params. rewrite He.
  unfold run_handler; simpl. fold dAppKeypair. rewrite H; simpl.
  destruct Hsets as [-> | [sess ->]]; simpl;
    repeat split; try reflexivity; discriminate.
Qed.

End Establish.

(** * The sample instance at work *)

Lemma Sample_codec_laws : CodecLaws Sample.externals.
Proof.
  constructor; simpl.
  - intros b. unfold Sample.decode58, Sample.encode58.
    rewrite list_byte_of_string_of_list_byte. reflexivity.
  - intros n rnd. apply repeat_length.
  - intros msg nonce key Hn Hk.
    unfold Sample.box_open_after, Sample.box_after.
    rewrite Hn, Hk; simpl negb; cbv iota.
    assert (L : List.length (key ++ nonce)%list = 56)
      by (rewrite length_app; lia).
    rewrite app_assoc.
    replace (firstn 56 ((key ++ nonce) ++ msg)%list) with (key ++ nonce)%list.
    + replace (skipn 56 ((key ++ nonce) ++ msg)%list) with msg.
      * unfold Sample.bytes_eqb.
        destruct (list_eq_dec byte_eq_dec _ _); [reflexivity | contradiction].
      * rewrite <- L, skipn_app, skipn_all, Nat.sub_diag. reflexivity.
    + rewrite <- L, firstn_app, firstn_all, Nat.sub_diag; simpl.
      rewrite app_nil_r. reflexivity.
Qed.

(** The sample wallet answers [connect] with a payload whose [public_key]
    is not base 58. *)
Lemma connect_bad_public_key_witness :
  let w1 := snd Sample.connected in
  let w2 := Sample.deliver (Sample.connect_response Sample.bad_key_payload) w1 in
  Sample.newPublicKey (JStr "0OIl") = Throw (Error "Non-base58 character")
  /\ promises w2 0 = Rejected (Error "Non-base58 character")
  /\ keypair (state w2) = Some (Sample.keyPair 0)
  /\ sharedSecret (state w2) = Some Sample.secret
  /\ publicKey (state w2) = None
  /\ state w2 <> state w1.
Proof.
  split; [reflexivity |].
  refine (proj2 (connect_late_failure_installs_partial_session
            Sample.externals Sample.cluster Sample.appUrl Sample.protocol
            (Sample.connect_response Sample.bad_key_payload)
            {| pathname := "/onConnect";
               searchParams := Sample.parse_query
                 (substring 18 200
                    (Sample.connect_response Sample.bad_key_payload)) |}
            Sample.wallet_key Sample.secret Sample.bad_key_payload
            (Error "Non-base58 character")
            _ _ _ _ _ _ _));
    try (vm_compute; reflexivity).
  right. exists (JStr "s1"), (JStr "0OIl"). vm_compute. repeat split.
Defined.

(** The sample provider, before any [connect], is given the transaction
    that is not finished. *)
Lemma signTransaction_serialize_error_witness :
  Disconnected (state Sample.start)
  /\ Sample.serialize [] = Throw (Error "Transaction recentBlockhash required")
  /\ signTransaction Sample.externals Sample.protocol [] Sample.start
     = (Threw (Error "Transaction recentBlockhash required"), Sample.start)
  /\ fst (signTransaction Sample.externals Sample.protocol [] Sample.start)
     <> Threw NotConnected
  /\ signMessage Sample.externals Sample.protocol [x02] Sample.start
     = (RejectedNow NotConnected, Sample.start).
Proof.
  split; [reflexivity |]. split; [reflexivity |].
  apply (signTransaction_serialize_error_precedes_guard Sample.externals
           Sample.protocol Sample.start [] [x02]
           (Error "Transaction recentBlockhash required")).
  - reflexivity.
  - reflexivity.
  - discriminate.
Defined.

(** Both sign operations on the sample provider before any [connect], with
    a transaction that serializes. *)
Lemma sign_requires_session_witness :
  Disconnected (state Sample.start)
  /\ Sample.serialize [x01] = Ok [x01]
  /\ signTransaction Sample.externals Sample.protocol [x01] Sample.start
     = (Threw NotConnected, Sample.start)
  /\ signMessage Sample.externals Sample.protocol [x02] Sample.start
     = (RejectedNow NotConnected, Sample.start).
Proof.
  split; [reflexivity |]. split; [reflexivity |].
  destruct (sign_requires_session_once_serialized Sample.externals
              Sample.protocol Sample.start [x01] [x02] eq_refl)
    as (_ & A & B).
  split; [exact (A [x01] eq_refl) | exact B].
Defined.


(** In the same state, [signMessage] and [signTransaction] on a transaction
    that serializes go ahead. *)
Lemma sign_guard_witness :
  let w := Sample.deliver (Sample.connect_response JNull) (snd Sample.connected) in
  session (state w) = JNull
  /\ sharedSecret (state w) = Some Sample.secret
  /\ keypair (state w) = Some (Sample.keyPair 0)
  /\ fst (signTransaction Sample.externals Sample.protocol [x01] w) = Returned 1
  /\ fst (signMessage Sample.externals Sample.protocol [x02] w) = Returned 1
  /\ subscribed 1 (snd (signMessage Sample.externals Sample.protocol [x02] w))
  /\ List.length (opened (snd (signMessage Sample.externals Sample.protocol [x02] w)))
     = 2.
Proof.
  intros w.
  destruct (sign_guard_once_serialized Sample.externals Sample.protocol
              w [x01] [x02] [x01] eq_refl) as (_ & _ & H).
  assert (Hs : session (state w) = JNull) by (vm_compute; reflexivity).
  assert (Hk : sharedSecret (state w) = Some Sample.secret)
    by (vm_compute; reflexivity).
  assert (Hp : keypair (state w) = Some (Sample.keyPair 0))
    by (vm_compute; reflexivity).
  destruct (H Sample.secret (Sample.keyPair 0) Hs Hk Hp)
    as ((T & _) & (A & B & C)).
  split; [exact Hs |]. split; [exact Hk |]. split; [exact Hp |].
  split; [exact T |]. split; [exact A |]. split; [exact B |].
  rewrite C. vm_compute. reflexivity.
Defined.

(** A sign payload through the sample codec, and the same box with one byte
    put in front. *)
Lemma encrypt_decrypt_round_trip_witness :
  let p := JObj [("session", JStr "s1"); ("message", JStr "zhi")] in
  let n := fst (encryptPayload Sample.externals p Sample.secret 7) in
  let c := snd (encryptPayload Sample.externals p Sample.secret 7) in
  let tampered := Some (Sample.encode58 (x00 :: c)) in
  CodecLaws Sample.externals
  /\ JSON_representable Sample.externals p
  /\ List.length Sample.secret = 32
  /\ decryptPayload Sample.externals (Some (Sample.encode58 c))
       (Some (Sample.encode58 n)) Sample.secret = Ok p
  /\ nacl_box_open_after Sample.externals (x00 :: c) n Sample.secret = Ok None
  /\ decryptPayload Sample.externals tampered (Some (Sample.encode58 n))
       Sample.secret = Throw DecryptionFailed.
Proof.
  intros p n c tampered.
  destruct (encrypt_decrypt_round_trip Sample.externals p Sample.secret 7
              tampered (Some (Sample.encode58 n)) Sample.secret)
    as (A & B & _).
  assert (R : JSON_representable Sample.externals p) by (vm_compute; reflexivity).
  assert (L : List.length Sample.secret = 32) by (vm_compute; reflexivity).
  assert (O : nacl_box_open_after Sample.externals (x00 :: c) n Sample.secret
              = Ok None) by (vm_compute; reflexivity).
  split; [exact Sample_codec_laws |].
  split; [exact R |]. split; [exact L |].
  split; [apply (A Sample_codec_laws R L n c); reflexivity |].
  split; [exact O |].
  apply (B (x00 :: c) n); [vm_compute; reflexivity | vm_compute; reflexivity | exact O].
Defined.

(** A waiter on [onSignMessage]: an event of another route, then a remote
    error on its own route, then one more event on its route. *)
Lemma first_matching_event_witness :
  let route := RedirectRoutes.OnSignMessage in
  let handler := signMessage_responseHandler Sample.externals Sample.secret in
  let pre := ["myapp://onConnect?errorCode=4001"] in
  let url := "myapp://onSignMessage?errorCode=4001" in
  let post := ["myapp://onSignMessage?data=z&nonce=z"] in
  let w2 := deliver_all Sample.externals Sample.appUrl Sample.protocol
              (pre ++ url :: post)
              (snd (waitForResponse route handler Sample.start)) in
  reachable Sample.externals Sample.cluster Sample.appUrl Sample.protocol
    Sample.start
  /\ route_matches Sample.externals Sample.appUrl Sample.protocol route url = true
  /\ promises w2 0 = Rejected RemoteError
  /\ times 0 (handled w2) = 0
  /\ ~ subscribed 0 w2.
Proof.
  intros route handler pre url post w2.
  assert (R : reachable Sample.externals Sample.cluster Sample.appUrl
                Sample.protocol Sample.start) by apply steps_refl.
  assert (M : route_matches Sample.externals Sample.appUrl Sample.protocol
                route url = true) by (vm_compute; reflexivity).
  assert (P : forall u, In u pre ->
              route_matches Sample.externals Sample.appUrl Sample.protocol
                route u = false).
  { intros u [<- | []]. vm_compute. reflexivity. }
  destruct (first_matching_event_decides Sample.externals Sample.cluster
              Sample.appUrl Sample.protocol Sample.start route handler
              pre post url R P M) as (A & _ & B & _).
  destruct A as [A1 A2]; [vm_compute; reflexivity |].
  split; [exact R |]. split; [exact M |].
  split; [exact A1 |]. split; [exact A2 | exact B].
Defined.

(** C5 as stated fails: the response to a [connect] carries a valid box and
    an [errorCode] parameter that is present and empty; the promise is
    fulfilled and the session is installed. *)
Lemma empty_errorCode_is_not_an_error :
  let url := Sample.connect_response Sample.good_payload ++ "&errorCode=" in
  let w2 := Sample.deliver url (snd Sample.connected) in
  fst Sample.connected = Returned 0
  /\ route_matches Sample.externals Sample.appUrl Sample.protocol
       RedirectRoutes.OnConnect url = true
  /\ get (event_params Sample.externals Sample.appUrl Sample.protocol url)
       "errorCode" = Some EmptyString
  /\ promises w2 0 = Fulfilled VVoid
  /\ promises w2 0 <> Rejected RemoteError
  /\ session (state w2) = JStr "s1".
Proof.
  vm_compute. repeat split; try reflexivity. discriminate.
Qed.

(** The listener of a waiter is removed in the turn that rejects it. *)
Lemma subscription_removed_witness :
  let route := RedirectRoutes.OnSignMessage in
  let handler := signMessage_responseHandler Sample.externals Sample.secret in
  let w1 := snd (waitForResponse route handler Sample.start) in
  let w2 := Sample.deliver "myapp://onSignMessage?errorCode=4001" w1 in
  reachable Sample.externals Sample.cluster Sample.appUrl Sample.protocol
    Sample.start
  /\ steps Sample.externals Sample.cluster Sample.appUrl Sample.protocol w1 w2
  /\ settled 0 w2 /\ ~ subscribed 0 w2 /\ times 0 (removed w2) = 1.
Proof.
  intros route handler w1 w2.
  assert (R : reachable Sample.externals Sample.cluster Sample.appUrl
                Sample.protocol Sample.start) by apply steps_refl.
  assert (S : steps Sample.externals Sample.cluster Sample.appUrl
                Sample.protocol w1 w2).
  { eapply steps_next; [apply steps_refl | apply step_deliver]. }
  assert (T : settled 0 w2) by (vm_compute; discriminate).
  destruct (subscription_removed_exactly_once Sample.externals Sample.cluster
              Sample.appUrl Sample.protocol Sample.start w2 route handler R S)
    as (A & _).
  destruct (A T) as [A1 A2].
  repeat split; assumption.
Defined.

(** Two waiters, and the two responses in the opposite order. *)
Lemma route_isolation_witness :
  let hA := signTransaction_onResponse Sample.externals Sample.secret in
  let hB := signMessage_responseHandler Sample.externals Sample.secret in
  let w1 := snd (waitForResponse RedirectRoutes.OnSignTransaction hA Sample.start) in
  let w2 := snd (waitForResponse RedirectRoutes.OnSignMessage hB w1) in
  let urls := ["myapp://onSignMessage?errorCode=4001";
               "myapp://onSignTransaction?errorCode=4100"] in
  let w3 := deliver_all Sample.externals Sample.appUrl Sample.protocol urls w2 in
  reachable Sample.externals Sample.cluster Sample.appUrl Sample.protocol
    Sample.start
  /\ promises w3 0
     = first_match Sample.externals Sample.appUrl Sample.protocol
         RedirectRoutes.OnSignTransaction hA
         ["myapp://onSignTransaction?errorCode=4100"]
  /\ promises w3 1
     = first_match Sample.externals Sample.appUrl Sample.protocol
         RedirectRoutes.OnSignMessage hB
         ["myapp://onSignMessage?errorCode=4001"].
Proof.
  intros hA hB w1 w2 urls w3.
  assert (R : reachable Sample.externals Sample.cluster Sample.appUrl
                Sample.protocol Sample.start) by apply steps_refl.
  destruct (route_isolation Sample.externals Sample.cluster Sample.appUrl
              Sample.protocol Sample.start RedirectRoutes.OnSignTransaction
              RedirectRoutes.OnSignMessage hA hB urls R) as (A & B & _).
  split; [exact R |]. split; [exact A | exact B].
Defined.

(** A connected sample provider signs, and the responses fail. *)
Lemma sign_leaves_session_witness :
  let w := Sample.deliver (Sample.connect_response Sample.good_payload)
             (snd Sample.connected) in
  let urls := ["myapp://onSignMessage?data=z&nonce=z";
               "myapp://onSignTransaction?errorCode=4001"] in
  (forall s, In s (listeners w) -> writes_nothing s)
  /\ state (deliver_all Sample.externals Sample.appUrl Sample.protocol urls
             (snd (signTransaction Sample.externals Sample.protocol [x01] w)))
     = state w
  /\ state (deliver_all Sample.externals Sample.appUrl Sample.protocol urls
             (snd (signMessage Sample.externals Sample.protocol [x02] w)))
     = state w.
Proof.
  intros w urls.
  assert (Q : forall s, In s (listeners w) -> writes_nothing s).
  { intros s H. vm_compute in H. contradiction. }
  destruct (sign_leaves_session Sample.externals Sample.appUrl Sample.protocol
              w [x01] [x02]) as (_ & _ & H).
  split; [exact Q | exact (H urls Q)].
Defined.

(** The other input on which a failed [connect] leaves key material: the
    payload is the JSON text [null], and reading [session] throws after
    [setKeypair] and [setSharedSecret]. *)
Lemma connect_null_payload_installs_keys :
  let w2 := Sample.deliver (Sample.connect_response JNull) (snd Sample.connected) in
  promises w2 0
  = Rejected (TypeError "Cannot read properties of null (reading 'session')")
  /\ state w2 = {| publicKey := None; keypair := Some (Sample.keyPair 0);
                   sharedSecret := Some Sample.secret; session := JNull |}.
Proof. vm_compute. split; reflexivity. Qed.

(** * Further properties of the provider *)

Section Requests.

Context {PublicKey Transaction : Type}.
Variable E : Externals PublicKey Transaction.
Variables (cluster appUrl protocol : string).

Abbreviation World := (@World PublicKey Transaction).
Abbreviation Subscription := (@Subscription PublicKey Transaction).
Abbreviation deliver' := (deliver E appUrl protocol).
Abbreviation deliver_all' := (deliver_all E appUrl protocol).
Abbreviation reachable' := (reachable E cluster appUrl protocol).
Abbreviation steps' := (steps E cluster appUrl protocol).
Abbreviation matches := (route_matches E appUrl protocol).
Abbreviation params_of := (event_params E appUrl protocol).

Local Open Scope js_scope.

(** ** What a box decrypts to *)

(** The box of a payload under any 24-byte nonce, as the wallet builds its
    responses. *)
Lemma decryptPayload_of_box (payload : JsVal) (nonce secret : bytes) :
  CodecLaws E -> JSON_representable E payload ->
  List.length nonce = 24 -> List.length secret = 32 ->
  decryptPayload E
    (Some (bs58_encode E
             (nacl_box_after E (Buffer_from E (JSON_stringify E payload))
                nonce secret)))
    (Some (bs58_encode E nonce)) secret
  = Ok payload.
Proof.
  intros L R Hn Hs. unfold decryptPayload; simpl.
  rewrite !(bs58_decode_encode L); simpl.
  rewrite (box_open_after_after L _ _ _ Hn Hs); simpl. exact R.
Qed.

(** ** What a call of a sign operation does *)

Lemma signMessage_dispatch (message : bytes) (w : World) secret kp :
  Inv w ->
  sharedSecret (state w) = Some secret -> keypair (state w) = Some kp ->
  let w' := snd (signMessage E protocol message w) in
  let payload := JObj [ ("session", session (state w));
                        ("message", JStr (bs58_encode E message)) ] in
  let enc := encryptPayload E payload secret (seed w) in
  fst (signMessage E protocol message w) = Returned (next_id w)
  /\ Inv w'
  /\ listeners w' =
       (listeners w ++
        [ {| sub_id := next_id w; sub_route := RedirectRoutes.OnSignMessage;
             sub_handler := signMessage_responseHandler E secret |} ])%list
  /\ opened w' =
       (opened w ++
        [ buildUrl E RequestRoutes.SignMessage
            [ ("dapp_encryption_public_key", bs58_encode E (box_publicKey kp));
              ("nonce", bs58_encode E (fst enc));
              ("redirect_link", (protocol ++ RedirectRoutes.OnSignMessage)%string);
              ("payload", bs58_encode E (snd enc)) ] ])%list
  /\ state w' = state w
  /\ next_id w' = S (next_id w).
Proof.
  intros I Hs Hk. cbv zeta.
  assert (I' : Inv (snd (signMessage E protocol message w)))
    by (apply Inv_signMessage; exact I).
  revert I'. unfold signMessage, not_connected. rewrite Hs, Hk; simpl.
  intros I'. split; [reflexivity |]. split; [exact I' |].
  repeat split; reflexivity.
Qed.

Lemma signTransaction_dispatch (transaction : Transaction) (w : World)
    raw secret kp :
  Inv w ->
  Transaction_serialize E transaction = Ok raw ->
  sharedSecret (state w) = Some secret -> keypair (state w) = Some kp ->
  let w' := snd (signTransaction E protocol transaction w) in
  let payload :=
    JObj [ ("session", session (state w));
           ("transaction", JStr (bs58_encode E raw)) ] in
  let enc := encryptPayload E payload secret (seed w) in
  fst (signTransaction E protocol transaction w) = Returned (next_id w)
  /\ Inv w'
  /\ listeners w' =
       (listeners w ++
        [ {| sub_id := next_id w;
             sub_route := RedirectRoutes.OnSignTransaction;
             sub_handler := signTransaction_onResponse E secret |} ])%list
  /\ opened w' =
       (opened w ++
        [ buildUrl E RequestRoutes.SignTransaction
            [ ("dapp_encryption_public_key", bs58_encode E (box_publicKey kp));
              ("nonce", bs58_encode E (fst enc));
              ("redirect_link", (protocol ++ RedirectRoutes.OnSignTransaction)%string);
              ("payload", bs58_encode E (snd enc)) ] ])%list
  /\ state w' = state w
  /\ next_id w' = S (next_id w).
Proof.
  intros I Hser Hs Hk. cbv zeta.
  assert (I' : Inv (snd (signTransaction E protocol transaction w)))
    by (apply Inv_signTransaction; exact I).
  revert I'. unfold signTransaction, not_connected. rewrite Hser, Hs, Hk; simpl.
  intros I'. split; [reflexivity |]. split; [exact I' |].
  repeat split; reflexivity.
Qed.

(** X1. The request of a sign operation can be read by the holder of the
    shared secret. For a transaction that serializes to [raw], and for any
    message, the call opens the URL made of [https://phantom.app/ul/v1/],
    the request route, [?] and the query of four parameters: the public key
    of the installed key pair, the drawn nonce, the redirect route of the
    operation, and a box; and the texts of that box and nonce decrypt, under
    the secret of the state, to the object made of the session of the state
    and the base-58 text of what is to be signed. *)
Theorem sign_request_decrypts (w : World) (transaction : Transaction)
    (raw message : bytes) (secret : bytes) (kp : BoxKeyPair) :
  CodecLaws E ->
  reachable' w ->
  Transaction_serialize E transaction = Ok raw ->
  sharedSecret (state w) = Some secret -> keypair (state w) = Some kp ->
  List.length secret = 32 ->
  let payloadT :=
    JObj [ ("session", session (state w));
           ("transaction", JStr (bs58_encode E raw)) ] in
  let payloadM :=
    JObj [ ("session", session (state w));
           ("message", JStr (bs58_encode E message)) ] in
  JSON_representable E payloadT -> JSON_representable E payloadM ->
  let nonce := nacl_randomBytes E 24 (seed w) in
  let query redirect box :=
    URLSearchParams_toString E
      [ ("dapp_encryption_public_key", bs58_encode E (box_publicKey kp));
        ("nonce", bs58_encode E nonce);
        ("redirect_link", protocol ++ redirect);
        ("payload", bs58_encode E box) ] in
  (exists box,
      opened (snd (signTransaction E protocol transaction w))
      = (opened w ++
         [ ("https://phantom.app/ul/v1/signTransaction?"
            ++ query RedirectRoutes.OnSignTransaction box)%string ])%list
      /\ decryptPayload E (Some (bs58_encode E box))
           (Some (bs58_encode E nonce)) secret = Ok payloadT)
  /\ (exists box,
      opened (snd (signMessage E protocol message w))
      = (opened w ++
         [ ("https://phantom.app/ul/v1/signMessage?"
            ++ query RedirectRoutes.OnSignMessage box)%string ])%list
      /\ decryptPayload E (Some (bs58_encode E box))
           (Some (bs58_encode E nonce)) secret = Ok payloadM).
Proof.
  intros L R Hser Hs Hk Hlen payloadT payloadM RT RM nonce query.
  pose proof (reachable_Inv E cluster appUrl protocol w R) as I.
  destruct (signTransaction_dispatch transaction w raw secret kp I Hser Hs Hk)
    as (_ & _ & _ & OT & _).
  destruct (signMessage_dispatch message w secret kp I Hs Hk)
    as (_ & _ & _ & OM & _).
  split.
  - eexists. split; [exact OT |].
    apply decryptPayload_of_box; auto. apply (randomBytes_length L).
  - eexists. split; [exact OM |].
    apply decryptPayload_of_box; auto. apply (randomBytes_length L).
Qed.

(** ** Responses to a sign operation *)

(** The promise of a sign call after the first event on its route. *)
Lemma signMessage_response (message : bytes) (w : World) secret kp url :
  Inv w ->
  sharedSecret (state w) = Some secret -> keypair (state w) = Some kp ->
  matches RedirectRoutes.OnSignMessage url = true ->
  promises (deliver' url (snd (signMessage E protocol message w))) (next_id w)
  = response_outcome (signMessage_responseHandler E secret) (params_of url).
Proof.
  intros I Hs Hk M.
  destruct (signMessage_dispatch message w secret kp I Hs Hk)
    as (_ & I' & Hl & _).
  apply (deliver_matched E appUrl protocol url _
           {| sub_id := next_id w; sub_route := RedirectRoutes.OnSignMessage;
              sub_handler := signMessage_responseHandler E secret |} I');
    [| exact M].
  rewrite Hl. apply in_or_app. right. left. reflexivity.
Qed.

Lemma signTransaction_response (transaction : Transaction) (w : World)
    raw secret kp url :
  Inv w ->
  Transaction_serialize E transaction = Ok raw ->
  sharedSecret (state w) = Some secret -> keypair (state w) = Some kp ->
  matches RedirectRoutes.OnSignTransaction url = true ->
  promises (deliver' url (snd (signTransaction E protocol transaction w)))
    (next_id w)
  = response_outcome (signTransaction_onResponse E secret) (params_of url).
Proof.
  intros I Hser Hs Hk M.
  destruct (signTransaction_dispatch transaction w raw secret kp I Hser Hs Hk)
    as (_ & I' & Hl & _).
  apply (deliver_matched E appUrl protocol url _
           {| sub_id := next_id w;
              sub_route := RedirectRoutes.OnSignTransaction;
              sub_handler := signTransaction_onResponse E secret |} I');
    [| exact M].
  rewrite Hl. apply in_or_app. right. left. reflexivity.
Qed.

(** X2. [signMessage] end to end: the provider holds a 32-byte secret, the
    response on [onSignMessage] has no [errorCode], and its [data] is the
    box, under that secret and the 24-byte nonce of its [nonce] parameter,
    of a payload whose [signature] is the base-58 text of [signature]. Then
    the promise of the call is fulfilled with exactly [signature]. *)
Theorem signMessage_round_trip (w : World) (message signature : bytes)
    (secret nonce : bytes) (kp : BoxKeyPair) (response : JsVal)
    (url : string) :
  reachable' w ->
  CodecLaws E ->
  sharedSecret (state w) = Some secret -> keypair (state w) = Some kp ->
  List.length secret = 32 -> List.length nonce = 24 ->
  JSON_representable E response ->
  get_prop response "signature" = Ok (JStr (bs58_encode E signature)) ->
  matches RedirectRoutes.OnSignMessage url = true ->
  truthy (get (params_of url) "errorCode") = false ->
  get (params_of url) ResponseParams.DATA
  = Some (bs58_encode E
            (nacl_box_after E (Buffer_from E (JSON_stringify E response))
               nonce secret)) ->
  get (params_of url) ResponseParams.NONCE = Some (bs58_encode E nonce) ->
  fst (signMessage E protocol message w) = Returned (next_id w)
  /\ promises (deliver' url (snd (signMessage E protocol message w)))
       (next_id w)
     = Fulfilled (VBytes signature).
Proof.
  intros R L Hs Hk Hlen Hn Rep Hsig M He Hd Hnc.
  pose proof (reachable_Inv E cluster appUrl protocol w R) as I.
  split; [apply (signMessage_dispatch message w secret kp I Hs Hk) |].
  rewrite (signMessage_response message w secret kp url I Hs Hk M).
  unfold response_outcome. rewrite He.
  unfold signMessage_responseHandler, lift; simpl.
  rewrite Hd, Hnc, (decryptPayload_of_box response nonce secret L Rep Hn Hlen).
  simpl. rewrite Hsig; simpl. rewrite (bs58_decode_encode L). reflexivity.
Qed.

(** X3. [signTransaction] end to end: for a transaction that serializes,
    with the same kind of response on [onSignTransaction], whose payload
    has as [transaction] the base-58 text of bytes that [Transaction.from]
    reads as [signed], the promise of the call is fulfilled with
    [signed]. *)
Theorem signTransaction_round_trip (w : World)
    (transaction signed : Transaction) (serialized raw secret nonce : bytes)
    (kp : BoxKeyPair) (response : JsVal) (url : string) :
  reachable' w ->
  CodecLaws E ->
  Transaction_serialize E transaction = Ok serialized ->
  sharedSecret (state w) = Some secret -> keypair (state w) = Some kp ->
  List.length secret = 32 -> List.length nonce = 24 ->
  JSON_representable E response ->
  get_prop response "transaction" = Ok (JStr (bs58_encode E raw)) ->
  Transaction_from E raw = Ok signed ->
  matches RedirectRoutes.OnSignTransaction url = true ->
  truthy (get (params_of url) "errorCode") = false ->
  get (params_of url) ResponseParams.DATA
  = Some (bs58_encode E
            (nacl_box_after E (Buffer_from E (JSON_stringify E response))
               nonce secret)) ->
  get (params_of url) ResponseParams.NONCE = Some (bs58_encode E nonce) ->
  fst (signTransaction E protocol transaction w) = Returned (next_id w)
  /\ promises (deliver' url (snd (signTransaction E protocol transaction w)))
       (next_id w)
     = Fulfilled (VTransaction signed).
Proof.
  intros R L Hser Hs Hk Hlen Hn Rep Htx Hfrom M He Hd Hnc.
  pose proof (reachable_Inv E cluster appUrl protocol w R) as I.
  split; [apply (signTransaction_dispatch transaction w serialized secret kp
                   I Hser Hs Hk) |].
  rewrite (signTransaction_response transaction w serialized secret kp url
             I Hser Hs Hk M).
  unfold response_outcome. rewrite He.
  unfold signTransaction_onResponse, lift; simpl.
  rewrite Hd, Hnc, (decryptPayload_of_box response nonce secret L Rep Hn Hlen).
  simpl. rewrite Htx; simpl. rewrite (bs58_decode_encode L); simpl.
  rewrite Hfrom. reflexivity.
Qed.

(** X4. What a fulfilled [signMessage] means: after the first event on
    [onSignMessage] the promise is settled, and it is fulfilled with [v]
    exactly when the event has no (non-empty) [errorCode], its box decrypts
    under the secret the call saw to a payload whose [signature] is a string,
    and [v] is the base-58 decoding of that string. *)
Theorem signMessage_fulfilled_iff (w : World) (message : bytes)
    (secret : bytes) (kp : BoxKeyPair) (url : string) (v : @Value Transaction) :
  reachable' w ->
  sharedSecret (state w) = Some secret -> keypair (state w) = Some kp ->
  matches RedirectRoutes.OnSignMessage url = true ->
  let w' := deliver' url (snd (signMessage E protocol message w)) in
  settled (next_id w) w'
  /\ (promises w' (next_id w) = Fulfilled v <->
      truthy (get (params_of url) "errorCode") = false
      /\ exists payload text raw,
          decryptPayload E (get (params_of url) ResponseParams.DATA)
            (get (params_of url) ResponseParams.NONCE) secret = Ok payload
          /\ get_prop payload "signature" = Ok (JStr text)
          /\ bs58_decode E text = Ok raw
          /\ v = VBytes raw).
Proof.
  intros R Hs Hk M.
  pose proof (reachable_Inv E cluster appUrl protocol w R) as I.
  cbv zeta. unfold settled.
  rewrite (signMessage_response message w secret kp url I Hs Hk M).
  split; [apply response_outcome_settled |].
  unfold response_outcome.
  destruct (truthy (get (params_of url) "errorCode")).
  { split; [discriminate | intros [H _]; discriminate]. }
  unfold signMessage_responseHandler, lift; simpl.
  destruct (decryptPayload E _ _ secret) as [payload | e]; simpl.
  2: { split; [discriminate | intros (_ & p & t & r & H & _); discriminate]. }
  destruct (get_prop payload "signature") as [sig | e] eqn:G; simpl.
  2: { split; [discriminate |].
       intros (_ & p & t & r & [= <-] & H & _). congruence. }
  destruct sig; simpl;
    try (split; [discriminate |];
         intros (_ & p & t & r & [= <-] & H & _); congruence).
  destruct (bs58_decode E s) as [raw | e] eqn:D; simpl.
  - split.
    + intros [= <-]. split; [reflexivity |].
      exists payload, s, raw. auto.
    + intros (_ & p & t & r & [= <-] & H & D' & ->).
      rewrite G in H. injection H as <-. congruence.
  - split; [discriminate |].
    intros (_ & p & t & r & [= <-] & H & D' & _).
    rewrite G in H. injection H as <-. congruence.
Qed.

(** ** connect, its response, and disconnect *)

Lemma apply_four_setters (st : ProviderState PublicKey) kp secret sess pk :
  apply_actions st
    [SetKeypair (Some kp); SetSharedSecret (Some secret); SetSession sess;
     SetPublicKey (Some pk)]
  = {| publicKey := Some pk; keypair := Some kp; sharedSecret := Some secret;
       session := sess |}.
Proof. destruct st; reflexivity. Qed.

Lemma connect_dispatch (w : World) :
  Inv w ->
  let w' := snd (connect E cluster appUrl protocol w) in
  let dAppKeypair := nacl_box_keyPair E (seed w) in
  fst (connect E cluster appUrl protocol w) = Returned (next_id w)
  /\ Inv w'
  /\ listeners w' =
       (listeners w ++
        [ {| sub_id := next_id w; sub_route := RedirectRoutes.OnConnect;
             sub_handler := connect_onResponse E dAppKeypair |} ])%list
  /\ opened w' =
       (opened w ++
        [ buildUrl E RequestRoutes.Connect
            [ ("dapp_encryption_public_key",
               bs58_encode E (box_publicKey dAppKeypair));
              ("cluster", cluster);
              ("app_url", appUrl);
              ("redirect_link", (protocol ++ RedirectRoutes.OnConnect)%string) ] ])%list
  /\ state w' = state w.
Proof.
  intros I. cbv zeta.
  split; [reflexivity |].
  split; [apply Inv_connect; exact I |].
  repeat split; reflexivity.
Qed.

(** The handler of [connect] on the response the wallet builds. *)
Lemma connect_onResponse_of_box (kp : BoxKeyPair) (params : URLSearchParams)
    (walletKey secret nonce : bytes) (payload sess key : JsVal)
    (identity : PublicKey) :
  CodecLaws E ->
  get params ResponseParams.PHANTOM_ENCRYPTION_PUBLIC_KEY
  = Some (bs58_encode E walletKey) ->
  nacl_box_before E walletKey (box_secretKey kp) = Ok secret ->
  List.length secret = 32 -> List.length nonce = 24 ->
  JSON_representable E payload ->
  get_prop payload "session" = Ok sess ->
  get_prop payload "public_key" = Ok key ->
  PublicKey_new E key = Ok identity ->
  get params ResponseParams.DATA
  = Some (bs58_encode E
            (nacl_box_after E (Buffer_from E (JSON_stringify E payload))
               nonce secret)) ->
  get params ResponseParams.NONCE = Some (bs58_encode E nonce) ->
  connect_onResponse E kp params
  = (Ok VVoid, [SetKeypair (Some kp); SetSharedSecret (Some secret);
                SetSession sess; SetPublicKey (Some identity)]).
Proof.
  intros L Hk Hb Hlen Hn Rep Hsess Hkey Hnew Hd Hnc.
  unfold connect_onResponse, lift, ebind.
  rewrite Hk; simpl. rewrite (bs58_decode_encode L); simpl. rewrite Hb.
  rewrite Hd, Hnc, (decryptPayload_of_box payload nonce secret L Rep Hn Hlen).
  simpl. rewrite Hsess; simpl. rewrite Hkey, Hnew. reflexivity.
Qed.

(** X5. [connect] end to end. The call opens the URL made of
    [https://phantom.app/ul/v1/connect?] and the query of four parameters:
    the public key of a fresh key pair, the cluster, the application URL
    and the redirect route [onConnect]. When the response on [onConnect] has no [errorCode], carries a
    wallet key from which the secret is derived, and its [data] is the box
    under that secret of a payload with a [session] and a [public_key] that
    [new PublicKey] accepts, the promise is fulfilled and the state holds
    that key pair, that secret, and the session and key of the payload,
    whatever it held before. *)
Theorem connect_round_trip (w : World) (url : string)
    (walletKey secret nonce : bytes) (payload sess key : JsVal)
    (identity : PublicKey) :
  reachable' w ->
  CodecLaws E ->
  let dAppKeypair := nacl_box_keyPair E (seed w) in
  let w1 := snd (connect E cluster appUrl protocol w) in
  let w2 := deliver' url w1 in
  matches RedirectRoutes.OnConnect url = true ->
  truthy (get (params_of url) "errorCode") = false ->
  get (params_of url) ResponseParams.PHANTOM_ENCRYPTION_PUBLIC_KEY
  = Some (bs58_encode E walletKey) ->
  nacl_box_before E walletKey (box_secretKey dAppKeypair) = Ok secret ->
  List.length secret = 32 -> List.length nonce = 24 ->
  JSON_representable E payload ->
  get_prop payload "session" = Ok sess ->
  get_prop payload "public_key" = Ok key ->
  PublicKey_new E key = Ok identity ->
  get (params_of url) ResponseParams.DATA
  = Some (bs58_encode E
            (nacl_box_after E (Buffer_from E (JSON_stringify E payload))
               nonce secret)) ->
  get (params_of url) ResponseParams.NONCE = Some (bs58_encode E nonce) ->
  opened w1
  = (opened w ++
     [ ("https://phantom.app/ul/v1/connect?"
        ++ URLSearchParams_toString E
             [ ("dapp_encryption_public_key",
                bs58_encode E (box_publicKey dAppKeypair));
               ("cluster", cluster);
               ("app_url", appUrl);
               ("redirect_link", protocol ++ RedirectRoutes.OnConnect) ])%string ])%list
  /\ promises w2 (next_id w) = Fulfilled VVoid
  /\ state w2 = {| publicKey := Some identity; keypair := Some dAppKeypair;
                   sharedSecret := Some secret; session := sess |}.
Proof.
  intros R L dAppKeypair w1 w2 M He Hk Hb Hlen Hn Rep Hsess Hkey Hnew Hd Hnc.
  pose proof (reachable_Inv E cluster appUrl protocol w R) as I.
  destruct (connect_dispatch w I) as (_ & I1 & Hl & Ho & _).
  pose proof (connect_onResponse_of_box dAppKeypair (params_of url) walletKey
                secret nonce payload sess key identity
                L Hk Hb Hlen Hn Rep Hsess Hkey Hnew Hd Hnc) as H.
  split; [| split].
  - exact Ho.
  - unfold w2, w1.
    destruct (deliver_matched E appUrl protocol url _
                {| sub_id := next_id w; sub_route := RedirectRoutes.OnConnect;
                   sub_handler := connect_onResponse E dAppKeypair |} I1)
      as (A & _); [rewrite Hl; apply in_or_app; right; left; reflexivity
                  | exact M |].
    cbn [sub_id sub_handler] in A. rewrite A.
    unfold response_outcome. rewrite He, H. reflexivity.
  - unfold w2, w1. rewrite connect_then_response.
    unfold writes at 2; simpl. fold dAppKeypair.
    rewrite M, He, H; simpl snd. apply apply_four_setters.
Qed.

(** X6. [disconnect] does not cancel what is pending: the listeners stay,
    and after any stream of events every promise is what it would have been
    without the [disconnect]. *)
Theorem disconnect_keeps_pending_requests (w : World) (urls : list string)
    (id : nat) :
  reachable' w ->
  listeners (disconnect w) = listeners w
  /\ promises (deliver_all' urls (disconnect w)) id
     = promises (deliver_all' urls w) id.
Proof.
  intros R. pose proof (reachable_Inv E cluster appUrl protocol w R) as I.
  pose proof (Inv_disconnect w I) as I'.
  split; [reflexivity |].
  destruct (in_dec Nat.eq_dec id (map sub_id (listeners w))) as [Hin | Hnot].
  - apply in_map_iff in Hin. destruct Hin as (s & <- & Hin).
    rewrite (deliver_all_first_match E appUrl protocol urls s _ I' Hin).
    rewrite (deliver_all_first_match E appUrl protocol urls s _ I Hin).
    reflexivity.
  - destruct (deliver_all_unsubscribed E appUrl protocol urls id _ I' Hnot)
      as (A & _).
    destruct (deliver_all_unsubscribed E appUrl protocol urls id _ I Hnot)
      as (B & _).
    rewrite A, B. reflexivity.
Qed.

(** X7. So a response to [connect] that arrives after a [disconnect] connects
    the provider again: when the handler of the pending [connect] returns on
    the response, the promise is fulfilled and the state holds the key pair
    of that [connect], a shared secret and a public key. *)
Theorem late_connect_response_reconnects (w : World) (url : string) :
  reachable' w ->
  let dAppKeypair := nacl_box_keyPair E (seed w) in
  let w1 := disconnect (snd (connect E cluster appUrl protocol w)) in
  let w2 := deliver' url w1 in
  matches RedirectRoutes.OnConnect url = true ->
  truthy (get (params_of url) "errorCode") = false ->
  fst (connect_onResponse E dAppKeypair (params_of url)) = Ok VVoid ->
  Disconnected (state w1)
  /\ promises w2 (next_id w) = Fulfilled VVoid
  /\ keypair (state w2) = Some dAppKeypair
  /\ sharedSecret (state w2) <> None
  /\ publicKey (state w2) <> None.
Proof.
  intros R dAppKeypair w1 w2 M He Hok.
  pose proof (reachable_Inv E cluster appUrl protocol w R) as I.
  destruct (connect_dispatch w I) as (_ & I1 & Hl & _).
  pose proof (Inv_disconnect _ I1) as I2. fold w1 in I2.
  assert (H : exists secret sess pk,
            connect_onResponse E dAppKeypair (params_of url)
            = (Ok VVoid, [SetKeypair (Some dAppKeypair);
                          SetSharedSecret (Some secret);
                          SetSession sess; SetPublicKey (Some pk)])).
  { destruct (connect_onResponse_cases E dAppKeypair (params_of url))
      as [(e & H) | [(s & e & H) | [(s & ss & e & H) | H]]];
      try (rewrite H in Hok; discriminate). exact H. }
  destruct H as (secret & sess & pk & H).
  split; [| split].
  - unfold Disconnected, w1, disconnect. cbn [state].
    apply apply_disconnect_sets.
  - destruct (deliver_matched E appUrl protocol url w1
                {| sub_id := next_id w; sub_route := RedirectRoutes.OnConnect;
                   sub_handler := connect_onResponse E dAppKeypair |} I2)
      as (A & _); [unfold w1, disconnect; cbn [listeners]; rewrite Hl;
                   apply in_or_app; right; left; reflexivity
                  | exact M |].
    cbn [sub_id sub_handler] in A. unfold w2. rewrite A.
    unfold response_outcome. rewrite He, H. reflexivity.
  - assert (S : state w2 = {| publicKey := Some pk; keypair := Some dAppKeypair;
                              sharedSecret := Some secret; session := sess |}).
    { unfold w2. rewrite deliver_state.
      unfold w1, disconnect. cbn [listeners state]. rewrite Hl.
      rewrite flat_map_app, apply_actions_app. cbn [flat_map].
      rewrite app_nil_r. unfold writes at 2. cbn [sub_route sub_handler].
      fold dAppKeypair. rewrite M, He, H. cbn [snd].
      apply apply_four_setters. }
    rewrite S. cbn. split; [reflexivity | split; discriminate].
Qed.

End Requests.

Section Events.

Context {PublicKey Transaction : Type}.
Variable E : Externals PublicKey Transaction.
Variables (cluster appUrl protocol : string).

Abbreviation World := (@World PublicKey Transaction).
Abbreviation Subscription := (@Subscription PublicKey Transaction).
Abbreviation deliver' := (deliver E appUrl protocol).
Abbreviation deliver_all' := (deliver_all E appUrl protocol).
Abbreviation reachable' := (reachable E cluster appUrl protocol).
Abbreviation step' := (step E cluster appUrl protocol).
Abbreviation steps' := (steps E cluster appUrl protocol).
Abbreviation matches := (route_matches E appUrl protocol).
Abbreviation params_of := (event_params E appUrl protocol).
Abbreviation phantom_request' := (phantom_request E).

(** ** Two requests on one route *)

(** X8. Responses are matched to requests by route alone: with two calls of
    [signMessage] pending, the first event on [onSignMessage] settles both
    promises, with the same outcome, and removes both listeners. *)
Theorem concurrent_signMessage_share_one_response (w : World)
    (message1 message2 : bytes) (secret : bytes) (kp : BoxKeyPair)
    (url : string) :
  reachable' w ->
  sharedSecret (state w) = Some secret -> keypair (state w) = Some kp ->
  matches RedirectRoutes.OnSignMessage url = true ->
  let first := next_id w in
  let second := S (next_id w) in
  let w1 := snd (signMessage E protocol message1 w) in
  let w2 := snd (signMessage E protocol message2 w1) in
  let w3 := deliver' url w2 in
  fst (signMessage E protocol message1 w) = Returned first
  /\ fst (signMessage E protocol message2 w1) = Returned second
  /\ promises w3 first
     = response_outcome (signMessage_responseHandler E secret) (params_of url)
  /\ promises w3 second = promises w3 first
  /\ ~ subscribed first w3 /\ ~ subscribed second w3.
Proof.
  intros R Hs Hk M first second w1 w2 w3.
  pose proof (reachable_Inv E cluster appUrl protocol w R) as I.
  destruct (signMessage_dispatch E protocol message1 w secret kp I Hs Hk)
    as (F1 & I1 & L1 & _ & S1 & N1).
  fold w1 in I1, L1, S1, N1.
  assert (Hs1 : sharedSecret (state w1) = Some secret) by (rewrite S1; exact Hs).
  assert (Hk1 : keypair (state w1) = Some kp) by (rewrite S1; exact Hk).
  destruct (signMessage_dispatch E protocol message2 w1 secret kp I1 Hs1 Hk1)
    as (F2 & I2 & L2 & _).
  fold w2 in I2, L2. rewrite N1 in F2, L2.
  set (sA := {| sub_id := first; sub_route := RedirectRoutes.OnSignMessage;
                sub_handler := signMessage_responseHandler E secret |}).
  set (sB := {| sub_id := second; sub_route := RedirectRoutes.OnSignMessage;
                sub_handler := signMessage_responseHandler E secret |}).
  assert (HA : In sA (listeners w2)).
  { rewrite L2, L1. apply in_or_app. left. apply in_or_app. right.
    left. reflexivity. }
  assert (HB : In sB (listeners w2)).
  { rewrite L2. apply in_or_app. right. left. reflexivity. }
  destruct (deliver_matched E appUrl protocol url w2 sA I2 HA M)
    as (A1 & A2 & _).
  destruct (deliver_matched E appUrl protocol url w2 sB I2 HB M)
    as (B1 & B2 & _).
  cbn [sub_id sub_handler sA sB] in A1, A2, B1, B2. fold w3 in A1, A2, B1, B2.
  split; [exact F1 |]. split; [exact F2 |]. split; [exact A1 |].
  split; [rewrite A1, B1; reflexivity |]. split; assumption.
Qed.

(** ** Promises are settled once *)

Lemma wait_promises route (handler : PhantomResponseHandler) (w : World) k :
  promises (snd (waitForResponse route handler w)) k
  = if Nat.eqb k (next_id w) then Pending else promises w k.
Proof. reflexivity. Qed.

(** A step that is not an event leaves the promises alone, or allocates the
    next one. *)
Lemma call_promises (w w' : World) :
  step' w w' ->
  (exists url, w' = deliver' url w)
  \/ (next_id w' = next_id w /\ promises w' = promises w)
  \/ (next_id w' = S (next_id w)
      /\ forall k, promises w' k
                   = if Nat.eqb k (next_id w) then Pending else promises w k).
Proof.
  intros S. destruct S as [w | t w | m w | w | route handler w | u w].
  - right; right. split; reflexivity.
  - unfold signTransaction.
    destruct (Transaction_serialize E t) as [raw | e]; [| right; left; auto].
    destruct (not_connected (state w)); [right; left; auto |].
    destruct (sharedSecret (state w)); [| right; left; auto].
    destruct (keypair (state w)); [| right; left; auto].
    right; right. split; reflexivity.
  - unfold signMessage.
    destruct (not_connected (state w)); [right; left; auto |].
    destruct (sharedSecret (state w)); [| right; left; auto].
    destruct (keypair (state w)); [| right; left; auto].
    right; right. split; reflexivity.
  - right; left. split; reflexivity.
  - right; right. split; reflexivity.
  - left. exists u. reflexivity.
Qed.

Lemma step_settled_once (w w' : World) id :
  Inv w -> fresh_pending w -> step' w w' ->
  fresh_pending w' /\ (settled id w -> promises w' id = promises w id).
Proof.
  intros I F S.
  destruct (call_promises w w' S) as [(u & ->) | [(N & P) | (N & P)]].
  - assert (U : forall k, ~ subscribed k w ->
              promises (deliver' u w) k = promises w k).
    { intros k Hns.
      apply (deliver_untouched E appUrl protocol u w k I).
      intros s Hin e. exfalso. apply Hns. rewrite <- e.
      apply in_map. exact Hin. }
    destruct (deliver_spec E appUrl protocol u w I)
      as (_ & _ & _ & N & _).
    split.
    + intros k Hk. rewrite N in Hk. rewrite U; [apply F; exact Hk |].
      apply (inv_fresh I Hk).
    + intros Hst. apply U.
      destruct (Nat.lt_ge_cases id (next_id w)) as [Hlt | Hge].
      * destruct (inv_known I Hlt) as [(_ & Hp & _) | (Hns & _)];
          [contradiction | exact Hns].
      * exfalso. apply Hst. apply F. exact Hge.
  - split.
    + intros k Hk. rewrite P. apply F. rewrite <- N. exact Hk.
    + intros _. rewrite P. reflexivity.
  - split.
    + intros k Hk. rewrite P, N in *.
      destruct (Nat.eqb k (next_id w)); [reflexivity | apply F; lia].
    + intros Hst. rewrite P.
      destruct (Nat.eqb_spec id (next_id w)) as [-> | _]; [| reflexivity].
      exfalso. apply Hst. apply F. apply Nat.le_refl.
Qed.

Lemma steps_settled_once (w w' : World) id :
  Inv w -> fresh_pending w -> steps' w w' ->
  Inv w' /\ fresh_pending w'
  /\ (settled id w -> promises w' id = promises w id).
Proof.
  intros I F S. induction S as [w | w1 w2 w3 S12 IH S23].
  - auto.
  - destruct (IH I F) as (I2 & F2 & H2).
    destruct (step_settled_once w2 w3 id I2 F2 S23) as (F3 & H3).
    split; [apply (Inv_step E cluster appUrl protocol w2 w3 S23 I2) |].
    split; [exact F3 |].
    intros Hst. rewrite <- (H2 Hst). apply H3.
    unfold settled. rewrite (H2 Hst). exact Hst.
Qed.

(** X9. A promise is settled once: in a reachable world a settled promise
    keeps its outcome through any further calls and events. *)
Theorem settled_promise_never_changes (w w' : World) (id : nat) :
  reachable' w -> steps' w w' -> settled id w ->
  promises w' id = promises w id /\ settled id w'.
Proof.
  intros R S Hst.
  assert (F0 : fresh_pending (@init PublicKey Transaction))
    by (intros k _; reflexivity).
  destruct (steps_settled_once init w id Inv_init F0 R) as (I & F & _).
  destruct (steps_settled_once w w' id I F S) as (_ & _ & H).
  split; [exact (H Hst) |]. unfold settled. rewrite (H Hst). exact Hst.
Qed.

(** ** Events that concern no one *)

Lemma emit_unmatched url (l : list Subscription) (w : World) :
  (forall s, In s l -> matches (sub_route s) url = false) ->
  fold_left (fun w' s => on_url E appUrl protocol s url w') l w = w.
Proof.
  induction l as [| a l IH]; intros H; simpl; [reflexivity |].
  rewrite (on_url_unmatched E appUrl protocol a url w (H a (or_introl eq_refl))).
  apply IH. intros s Hin. apply H. right; exact Hin.
Qed.

Lemma route_matches_unparsable route url e :
  URL_new E (String_replace url protocol appUrl) = Throw e ->
  matches route url = false.
Proof. unfold route_matches. intros ->. reflexivity. Qed.

(** X10. An event whose URL does not parse, or whose path matches the route
    of no registered listener, leaves the whole world as it is: no promise
    settles, no listener is removed, no handler runs. *)
Theorem unmatched_event_changes_nothing (w : World) (url : string) :
  reachable' w ->
  (exists e, URL_new E (String_replace url protocol appUrl) = Throw e)
  \/ (forall s, In s (listeners w) -> matches (sub_route s) url = false) ->
  deliver' url w = w.
Proof.
  intros R H.
  assert (U : forall s, In s (listeners w) -> matches (sub_route s) url = false).
  { destruct H as [[e H] | H]; [| exact H].
    intros s _. apply (route_matches_unparsable _ _ e H). }
  pose proof (reachable_Inv E cluster appUrl protocol w R) as I.
  pose proof (inv_jobs I) as J. clear I R H.
  unfold deliver, emit. rewrite (emit_unmatched url (listeners w) w U).
  unfold run_jobs. rewrite J. simpl.
  destruct w; simpl in J |- *. rewrite J. reflexivity.
Qed.

(** X11. Handling events never sends anything: after any stream of events
    the URLs opened, the next request number and the random source are what
    they were, and every listener that is registered was registered
    before. *)
Theorem events_dispatch_nothing (w : World) (urls : list string) :
  reachable' w ->
  opened (deliver_all' urls w) = opened w
  /\ next_id (deliver_all' urls w) = next_id w
  /\ seed (deliver_all' urls w) = seed w
  /\ (forall s, In s (listeners (deliver_all' urls w)) -> In s (listeners w)).
Proof.
  intros R. pose proof (reachable_Inv E cluster appUrl protocol w R) as I.
  clear R. revert w I.
  induction urls as [| u urls IH]; intros w I; simpl; [auto |].
  destruct (deliver_spec E appUrl protocol u w I)
    as (_ & _ & _ & N & O & S & _).
  destruct (IH _ (Inv_deliver E appUrl protocol u w I)) as (O' & N' & S' & L').
  repeat split; try congruence.
  intros s Hin. apply (deliver_listeners E appUrl protocol u w).
  apply L'. exact Hin.
Qed.

(** ** The requests that are opened *)

Lemma buildUrl_prefix path (params : URLSearchParams) :
  prefix "https://phantom.app/ul/v1/" (buildUrl E path params) = true.
Proof.
  unfold buildUrl, PhantomWalletUrl. simpl.
  destruct (path ++ _)%string; reflexivity.
Qed.

Lemma buildUrl_phantom_request route params :
  In route [RequestRoutes.Connect; RequestRoutes.SignTransaction;
            RequestRoutes.SignMessage] ->
  phantom_request' (buildUrl E route params).
Proof.
  intros H. split; [apply buildUrl_prefix |]. exists route, params. auto.
Qed.

Lemma step_opened (w w' : World) :
  Inv w -> step' w w' ->
  Forall phantom_request' (opened w) -> Forall phantom_request' (opened w').
Proof.
  intros I S F. destruct S as [w | t w | m w | w | route handler w | u w].
  - unfold connect; simpl. apply Forall_app. split; [exact F |].
    constructor; [| constructor].
    apply buildUrl_phantom_request. simpl; auto.
  - unfold signTransaction.
    destruct (Transaction_serialize E t) as [raw | e]; [| exact F].
    destruct (not_connected (state w)); [exact F |].
    destruct (sharedSecret (state w)); [| exact F].
    destruct (keypair (state w)); [| exact F]. simpl.
    apply Forall_app. split; [exact F |].
    constructor; [| constructor].
    apply buildUrl_phantom_request. simpl; auto.
  - unfold signMessage.
    destruct (not_connected (state w)); [exact F |].
    destruct (sharedSecret (state w)); [| exact F].
    destruct (keypair (state w)); [| exact F]. simpl.
    apply Forall_app. split; [exact F |].
    constructor; [| constructor].
    apply buildUrl_phantom_request. simpl; auto.
  - exact F.
  - exact F.
  - destruct (deliver_spec E appUrl protocol u w I)
      as (_ & _ & _ & _ & O & _).
    rewrite O. exact F.
Qed.

(** X12. Every URL the provider has given to [Linking.openURL] is a Phantom
    universal link: it is built by [buildUrl] for one of the three request
    routes, and so begins with [https://phantom.app/ul/v1/]. *)
Theorem opened_urls_are_phantom_requests (w : World) :
  reachable' w -> Forall phantom_request' (opened w).
Proof.
  intros R. unfold reachable in R.
  assert (G : forall w0 w1 : World, steps' w0 w1 -> Inv w0 ->
              Forall phantom_request' (opened w0) ->
              Forall phantom_request' (opened w1)).
  { intros w0 w1 S. induction S as [w0 | w1 w2 w3 S12 IH S23]; intros I F.
    - exact F.
    - apply (step_opened w2 w3); [| exact S23 | exact (IH I F)].
      apply (Inv_steps E cluster appUrl protocol _ _ S12 I). }
  apply (G init w R Inv_init). constructor.
Qed.

(** ** The rewriting of the callback scheme *)

Lemma prefix_append (p r : string) : prefix p (p ++ r) = true.
Proof.
  induction p as [| a p IH]; simpl.
  - destruct r; reflexivity.
  - destruct (ascii_dec a a) as [_ | ne]; [exact IH | contradiction].
Qed.

Lemma index_append (p r : string) : index 0 p (p ++ r) = Some 0.
Proof.
  destruct (p ++ r)%string as [| b s] eqn:Heq.
  - destruct p; [reflexivity | discriminate].
  - assert (P : prefix p (String b s) = true)
      by (rewrite <- Heq; apply prefix_append).
    cbn [index]. rewrite P. reflexivity.
Qed.

Lemma substring_all (s : string) : substring 0 (String.length s) s = s.
Proof. induction s as [| a s IH]; simpl; [| rewrite IH]; reflexivity. Qed.

Lemma substring_after (p r : string) :
  substring (String.length p) (String.length (p ++ r) - String.length p)
    (p ++ r) = r.
Proof.
  induction p as [| a p IH]; simpl.
  - rewrite Nat.sub_0_r. apply substring_all.
  - exact IH.
Qed.

(** X13. Line 121 on a callback: when the application URL has no [$] (so
    that [replace] takes it literally), a URL that begins with the protocol
    of the application is parsed as the application URL followed by the
    rest, so whether it matches a route is decided by the path of that
    URL. *)
Theorem callback_scheme_is_rewritten (rest route : string) :
  index 0 "$" appUrl = None ->
  String_replace (protocol ++ rest) protocol appUrl = (appUrl ++ rest)%string
  /\ matches route (protocol ++ rest)
     = match URL_new E (appUrl ++ rest) with
       | Ok parsedUrl => RegExp_test E route (pathname parsedUrl)
       | Throw _ => false
       end.
Proof.
  intros _.
  assert (H : String_replace (protocol ++ rest) protocol appUrl
              = (appUrl ++ rest)%string).
  { unfold String_replace. rewrite index_append. simpl.
    rewrite substring_after. destruct (protocol ++ rest)%string; reflexivity. }
  split; [exact H |]. unfold route_matches. rewrite H. reflexivity.
Qed.

End Events.

(** * The further properties on the sample application *)

Lemma Sample_session_reachable :
  reachable Sample.externals Sample.cluster Sample.appUrl Sample.protocol
    Sample.session_world.
Proof.
  unfold reachable, Sample.session_world, Sample.deliver, Sample.connected.
  eapply steps_next; [eapply steps_next; [apply steps_refl | apply step_connect] |].
  apply step_deliver.
Qed.

Lemma Sample_start_reachable :
  reachable Sample.externals Sample.cluster Sample.appUrl Sample.protocol
    Sample.start.
Proof. apply steps_refl. Qed.

(** The request of [signMessage] of the sample provider decrypts to its
    session and message. *)
Lemma sign_request_decrypts_witness :
  sharedSecret (state Sample.session_world) = Some Sample.secret
  /\ Sample.serialize [x01] = Ok [x01]
  /\ exists box,
      opened (snd (signMessage Sample.externals Sample.protocol [x02]
                     Sample.session_world))
      = (opened Sample.session_world
         ++ [ ("https://phantom.app/ul/v1/signMessage?"
               ++ Sample.query_toString
                    [ ("dapp_encryption_public_key",
                       Sample.encode58 (box_publicKey (Sample.keyPair 0)));
                      ("nonce", Sample.encode58 (Sample.randomBytes 24 1));
                      ("redirect_link", "myapp://onSignMessage");
                      ("payload", Sample.encode58 box) ])%string ])%list
      /\ decryptPayload Sample.externals (Some (Sample.encode58 box))
           (Some (Sample.encode58 (Sample.randomBytes 24 1))) Sample.secret
         = Ok (JObj [("session", JStr "s1");
                     ("message", JStr (Sample.encode58 [x02]))]).
Proof.
  assert (Hs : sharedSecret (state Sample.session_world) = Some Sample.secret)
    by (vm_compute; reflexivity).
  split; [exact Hs |]. split; [reflexivity |].
  destruct (sign_request_decrypts Sample.externals Sample.cluster
              Sample.appUrl Sample.protocol Sample.session_world
              [x01] [x01] [x02] Sample.secret (Sample.keyPair 0))
    as (_ & (box & O & D)).
  - exact Sample_codec_laws.
  - exact Sample_session_reachable.
  - reflexivity.
  - exact Hs.
  - vm_compute; reflexivity.
  - vm_compute; reflexivity.
  - vm_compute; reflexivity.
  - vm_compute; reflexivity.
  - exists box. split; [exact O | exact D].
Defined.

(** The sample wallet signs a message. *)
Lemma signMessage_round_trip_witness :
  let url := Sample.sign_response RedirectRoutes.OnSignMessage
               (Sample.signature_payload [x41; x42]) in
  promises (Sample.deliver url
              (snd (signMessage Sample.externals Sample.protocol [x02]
                      Sample.session_world))) 1
  = Fulfilled (VBytes [x41; x42]).
Proof.
  intros url.
  refine (proj2 (signMessage_round_trip Sample.externals Sample.cluster
            Sample.appUrl Sample.protocol Sample.session_world [x02]
            [x41; x42] Sample.secret Sample.nonce (Sample.keyPair 0)
            (Sample.signature_payload [x41; x42]) url
            Sample_session_reachable Sample_codec_laws
            _ _ _ _ _ _ _ _ _ _)); vm_compute; reflexivity.
Defined.

(** The sample wallet signs a transaction. *)
Lemma signTransaction_round_trip_witness :
  let url := Sample.sign_response RedirectRoutes.OnSignTransaction
               (Sample.transaction_payload [x07; x08]) in
  promises (Sample.deliver url
              (snd (signTransaction Sample.externals Sample.protocol [x01]
                      Sample.session_world))) 1
  = Fulfilled (VTransaction ([x07; x08] : Sample.Transaction)).
Proof.
  intros url.
  refine (proj2 (signTransaction_round_trip Sample.externals Sample.cluster
            Sample.appUrl Sample.protocol Sample.session_world [x01]
            [x07; x08] [x01] [x07; x08] Sample.secret Sample.nonce
            (Sample.keyPair 0)
            (Sample.transaction_payload [x07; x08]) url
            Sample_session_reachable Sample_codec_laws
            _ _ _ _ _ _ _ _ _ _ _ _)); vm_compute; reflexivity.
Defined.

(** A response that was boxed for another provider does not fulfil the
    promise. *)
Lemma signMessage_fulfilled_iff_witness :
  let url := "myapp://onSignMessage?nonce=z&data=z" in
  let w' := Sample.deliver url
              (snd (signMessage Sample.externals Sample.protocol [x02]
                      Sample.session_world)) in
  settled 1 w' /\ promises w' 1 <> Fulfilled (VBytes [x41; x42]).
Proof.
  intros url w'.
  destruct (signMessage_fulfilled_iff Sample.externals Sample.cluster
              Sample.appUrl Sample.protocol Sample.session_world [x02]
              Sample.secret (Sample.keyPair 0) url (VBytes [x41; x42])
              Sample_session_reachable)
    as (S & F); try (vm_compute; reflexivity).
  split; [exact S |].
  intros H. apply F in H. destruct H as (_ & p & t & r & D & _).
  vm_compute in D. discriminate.
Defined.

(** The sample wallet accepts the [connect] of the sample provider. *)
Lemma connect_round_trip_witness :
  let w2 := Sample.deliver (Sample.connect_response Sample.good_payload)
              (snd Sample.connected) in
  promises w2 0 = Fulfilled VVoid
  /\ state w2 = {| publicKey := Some (repeat x03 32);
                   keypair := Some (Sample.keyPair 0);
                   sharedSecret := Some Sample.secret;
                   session := JStr "s1" |}.
Proof.
  refine (proj2 (connect_round_trip Sample.externals Sample.cluster
            Sample.appUrl Sample.protocol Sample.start
            (Sample.connect_response Sample.good_payload)
            Sample.wallet_key Sample.secret Sample.nonce Sample.good_payload
            (JStr "s1") (JStr (Sample.encode58 (repeat x03 32)))
            (repeat x03 32)
            Sample_start_reachable Sample_codec_laws
            _ _ _ _ _ _ _ _ _ _ _ _)); vm_compute; reflexivity.
Defined.

(** A remote error answers the [connect] of the sample provider. *)
Lemma connect_failure_witness :
  let url := "myapp://onConnect?errorCode=4001" in
  truthy (get (event_params Sample.externals Sample.appUrl Sample.protocol url)
            "errorCode") = true
  /\ state (Sample.deliver url (snd Sample.connected)) = state Sample.start.
Proof.
  intros url.
  assert (H : truthy (get (event_params Sample.externals Sample.appUrl
                             Sample.protocol url) "errorCode") = true)
    by (vm_compute; reflexivity).
  split; [exact H |].
  apply (connect_failure_before_install Sample.externals Sample.cluster
           Sample.appUrl Sample.protocol url Sample.start).
  - intros s [].
  - left. exact H.
Defined.

(** A pending [signMessage] of the sample provider, a [disconnect], and the
    response. *)
Lemma disconnect_keeps_pending_witness :
  let w := snd (signMessage Sample.externals Sample.protocol [x02]
                  Sample.session_world) in
  let urls := [Sample.sign_response RedirectRoutes.OnSignMessage
                 (Sample.signature_payload [x41; x42])] in
  reachable Sample.externals Sample.cluster Sample.appUrl Sample.protocol w
  /\ promises (deliver_all Sample.externals Sample.appUrl Sample.protocol urls
                 (disconnect w)) 1
     = promises (deliver_all Sample.externals Sample.appUrl Sample.protocol
                   urls w) 1.
Proof.
  intros w urls.
  assert (R : reachable Sample.externals Sample.cluster Sample.appUrl
                Sample.protocol w).
  { eapply steps_next; [exact Sample_session_reachable |].
    apply step_signMessage. }
  split; [exact R |].
  apply (disconnect_keeps_pending_requests Sample.externals Sample.cluster
           Sample.appUrl Sample.protocol w urls 1 R).
Defined.

(** The sample provider disconnects before the wallet answers its
    [connect]. *)
Lemma late_connect_response_witness :
  let w1 := disconnect (snd Sample.connected) in
  let w2 := Sample.deliver (Sample.connect_response Sample.good_payload) w1 in
  Disconnected (state w1)
  /\ promises w2 0 = Fulfilled VVoid
  /\ keypair (state w2) = Some (Sample.keyPair 0)
  /\ sharedSecret (state w2) <> None
  /\ publicKey (state w2) <> None.
Proof.
  apply (late_connect_response_reconnects Sample.externals Sample.cluster
           Sample.appUrl Sample.protocol Sample.start
           (Sample.connect_response Sample.good_payload)
           Sample_start_reachable); vm_compute; reflexivity.
Defined.

(** Two messages are given to the sample provider before the wallet
    answers once. *)
Lemma concurrent_signMessage_witness :
  let w1 := snd (signMessage Sample.externals Sample.protocol [x02]
                   Sample.session_world) in
  let w2 := snd (signMessage Sample.externals Sample.protocol [x05] w1) in
  let w3 := Sample.deliver
              (Sample.sign_response RedirectRoutes.OnSignMessage
                 (Sample.signature_payload [x41; x42])) w2 in
  promises w3 2 = promises w3 1 /\ ~ subscribed 1 w3 /\ ~ subscribed 2 w3.
Proof.
  destruct (concurrent_signMessage_share_one_response Sample.externals
              Sample.cluster Sample.appUrl Sample.protocol Sample.session_world
              [x02] [x05] Sample.secret (Sample.keyPair 0)
              (Sample.sign_response RedirectRoutes.OnSignMessage
                 (Sample.signature_payload [x41; x42]))
              Sample_session_reachable)
    as (_ & _ & _ & A & B & C); try (vm_compute; reflexivity).
  split; [exact A |]. split; [exact B | exact C].
Defined.

(** The promise of the sample [connect], once fulfilled, through a
    [disconnect] and a second response. *)
Lemma settled_promise_witness :
  let w' := Sample.deliver (Sample.connect_response Sample.bad_key_payload)
              (disconnect Sample.session_world) in
  settled 0 Sample.session_world
  /\ promises w' 0 = promises Sample.session_world 0.
Proof.
  intros w'.
  assert (S : settled 0 Sample.session_world) by (vm_compute; discriminate).
  split; [exact S |].
  apply (settled_promise_never_changes Sample.externals Sample.cluster
           Sample.appUrl Sample.protocol Sample.session_world w' 0
           Sample_session_reachable).
  - eapply steps_next; [eapply steps_next; [apply steps_refl |] |].
    + apply step_disconnect.
    + apply step_deliver.
  - exact S.
Defined.

(** An event that is not a URL reaches the sample provider while its
    [connect] is pending. *)
Lemma unmatched_event_witness :
  Sample.parse_url (String_replace "tel:123" Sample.protocol Sample.appUrl)
  = Throw (TypeError "Invalid URL")
  /\ Sample.deliver "tel:123" (snd Sample.connected) = snd Sample.connected.
Proof.
  split; [reflexivity |].
  apply (unmatched_event_changes_nothing Sample.externals Sample.cluster
           Sample.appUrl Sample.protocol (snd Sample.connected) "tel:123").
  - eapply steps_next; [apply steps_refl | apply step_connect].
  - left. exists (TypeError "Invalid URL"). reflexivity.
Defined.

(** Two responses reach the sample provider while its [connect] is
    pending. *)
Lemma events_dispatch_nothing_witness :
  let urls := [Sample.connect_response Sample.good_payload;
               "myapp://onConnect?errorCode=4001"] in
  let w' := deliver_all Sample.externals Sample.appUrl Sample.protocol urls
              (snd Sample.connected) in
  opened w' = opened (snd Sample.connected)
  /\ next_id w' = 1 /\ seed w' = 1.
Proof.
  intros urls w'.
  destruct (events_dispatch_nothing Sample.externals Sample.cluster
              Sample.appUrl Sample.protocol (snd Sample.connected) urls)
    as (A & B & C & _).
  - eapply steps_next; [apply steps_refl | apply step_connect].
  - split; [exact A |]. split; [exact B | exact C].
Defined.

(** The two URLs the sample provider has opened after a [connect] and a
    [signMessage]. *)
Lemma opened_urls_witness :
  let w := snd (signMessage Sample.externals Sample.protocol [x02]
                  Sample.session_world) in
  List.length (opened w) = 2
  /\ Forall (phantom_request Sample.externals) (opened w).
Proof.
  intros w. split; [reflexivity |].
  apply (opened_urls_are_phantom_requests Sample.externals Sample.cluster
           Sample.appUrl Sample.protocol w).
  eapply steps_next; [exact Sample_session_reachable | apply step_signMessage].
Defined.

(** The callback of the sample wallet to a [connect]. *)
Lemma callback_scheme_witness :
  index 0 "$" Sample.appUrl = None
  /\ String_replace "myapp://onConnect?errorCode=4001" Sample.protocol
       Sample.appUrl
     = "https://app.example/onConnect?errorCode=4001"
  /\ route_matches Sample.externals Sample.appUrl Sample.protocol
       RedirectRoutes.OnConnect "myapp://onConnect?errorCode=4001" = true.
Proof.
  assert (H : index 0 "$" Sample.appUrl = None) by reflexivity.
  split; [exact H |].
  destruct (callback_scheme_is_rewritten Sample.externals Sample.appUrl
              Sample.protocol "onConnect?errorCode=4001"
              RedirectRoutes.OnConnect H) as (A & B).
  split; [exact A |]. etransitivity; [exact B | reflexivity].
Defined.
